(** * Breast-cancer prediction app (deployment/app.py): inference,
    explanation frames and the [predictions] audit table.

    The Streamlit script is embedded as a pure function of its inputs (the
    sidebar widgets, the unpickled model object, the clock) over an explicit
    database connection.  numpy [float64] values are modelled by exact
    rationals [Q]: rounding, infinities and NaN are outside the model.
    Python exceptions are values of [exn]; a computation that may raise
    returns a [result]. *)

From Stdlib Require Import QArith Qabs ZArith Sorting.Sorted Lqa.
From stdpp Require Import base option list strings gmap sorting.

(** ** Exceptions and the error monad *)

Inductive exn :=
  | AttributeError (attr : string)
  | NameError (name : string)
  | KeyError (key : string)
  | IndexError
  | TypeError
  | ValueError (msg : string)
  | ProgrammingError (msg : string)
  | DataError (msg : string)
  | IntegrityError (msg : string).

Inductive result (A : Type) :=
  | Ok (a : A)
  | Raise (e : exn).
Arguments Ok {A} a.
Arguments Raise {A} e.

#[global] Instance result_ret : MRet result := λ A a, Ok a.
#[global] Instance result_bind : MBind result := λ A B f r,
  match r with Ok a => f a | Raise e => Raise e end.
#[global] Instance result_fmap : FMap result := λ A B f r,
  match r with Ok a => Ok (f a) | Raise e => Raise e end.

(** [obj.attr] on an object that may lack the attribute. *)
Definition getattr {A} (attr : string) (o : option A) : result A :=
  match o with Some a => Ok a | None => Raise (AttributeError attr) end.

(** [xs[i]] on a sequence. *)
Definition getitem {A} (xs : list A) (i : nat) : result A :=
  match xs !! i with Some x => Ok x | None => Raise IndexError end.

(** ** The numpy operations the script uses *)

Module np.

(** [np.abs] on a 1-D array. *)
Definition abs (a : list Q) : list Q := map Qabs a.

(** The inner product of two 1-D arrays of equal length. *)
Definition inner (a b : list Q) : Q :=
  foldr Qplus 0%Q (zip_with Qmult a b).

(** [np.dot(M, v)] for a one-row matrix [M] (given by its row) and a 1-D
    array [v]: a 1-D array with one entry when the shapes are aligned. *)
Definition dot (row v : list Q) : result (list Q) :=
  if (length row =? length v)%nat then Ok [inner row v]
  else Raise (ValueError "shapes not aligned").

(** Elementwise [a * b] on 1-D arrays, with numpy's broadcasting of an
    array of length one. *)
Definition multiply (a b : list Q) : result (list Q) :=
  if (length a =? length b)%nat then Ok (zip_with Qmult a b)
  else match a, b with
       | [x], _ => Ok (map (Qmult x) b)
       | _, [y] => Ok (map (λ x, Qmult x y) a)
       | _, _ => Raise (ValueError "operands could not be broadcast together")
       end.

(** [c + a] for a scalar [c] and a 1-D array [a]. *)
Definition add_scalar (c : Q) (a : list Q) : list Q := map (Qplus c) a.

End np.

(** ** The unpickled model object

    [joblib.load] yields a Python object; the script reads the attributes
    below, each of which a given object may or may not have. [coef_] is a 2-D
    array (one row per class boundary), [predict] returns a 1-D array of
    labels and [predict_proba] a 2-D array with one row per sample. *)

Record Model := {
  coef_ : option (list (list Q));
  intercept_ : option (list Q);
  feature_importances_ : option (list Q);
  predict : list (string * Q) → result (list Z);
  predict_proba : option (list (string * Q) → result (list (list Q)))
}.

(** ** Configuration *)

Definition model_paths : list (string * string) :=
  [ ("Logistic Regression", "models/logistic_regression.pkl");
    ("Gradient Boosting", "models/gradient_boosting.pkl");
    ("LightGBM", "models/lightgbm.pkl");
    ("XGBoost", "models/xgboost.pkl");
    ("Catboost", "models/catboost.pkl") ].

Definition model_names : list string := map fst model_paths.

Definition features : list string :=
  [ "area_mean"; "area_se"; "area_worst"; "compactness_mean";
    "compactness_worst"; "concave points_mean"; "concave points_worst";
    "concavity_mean"; "concavity_worst"; "perimeter_mean"; "perimeter_se";
    "perimeter_worst"; "radius_mean"; "radius_se"; "radius_worst";
    "smoothness_worst"; "symmetry_worst"; "texture_mean"; "texture_worst" ].

Definition tree_based_models : list string :=
  [ "Gradient Boosting"; "LightGBM"; "XGBoost"; "Catboost" ].

(** ** Global feature importance (lines 68-73) *)

Definition global_importance (selected_model_name : string) (model : Model)
  : result (list Q) :=
  if String.eqb selected_model_name "Logistic Regression" then
    coef ← getattr "coef_" (coef_ model);
    row ← getitem coef 0;
    mret (np.abs row)
  else if bool_decide (selected_model_name ∈ tree_based_models) then
    getattr "feature_importances_" (feature_importances_ model)
  else Raise (NameError "global_importance").

(** ** The pandas operations the script uses *)

Module pd.

(** A column holds strings (feature names) or numbers. *)
Inductive column :=
  | StrCol (l : list string)
  | NumCol (l : list Q).

Definition col_length (c : column) : nat :=
  match c with StrCol l => length l | NumCol l => length l end.

(** A frame: the row labels and the named columns, in insertion order. *)
Record frame := { index : list nat; columns : list (string * column) }.

(** [pd.DataFrame({name: values, ...})]: all the arrays must have one
    length; the rows are labelled 0, 1, ... *)
Definition DataFrame (data : list (string * column)) : result frame :=
  match data with
  | [] => Ok {| index := []; columns := [] |}
  | (_, c) :: rest =>
      if forallb (λ kc, col_length kc.2 =? col_length c)%nat rest
      then Ok {| index := seq 0 (col_length c); columns := data |}
      else Raise (ValueError "All arrays must be of the same length")
  end.

Fixpoint assoc {A} (k : string) (l : list (string * A)) : option A :=
  match l with
  | [] => None
  | (k', a) :: l' => if String.eqb k k' then Some a else assoc k l'
  end.

(** [df[name]] *)
Definition getcol (df : frame) (name : string) : result column :=
  match assoc name (columns df) with
  | Some c => Ok c
  | None => Raise (KeyError name)
  end.

Definition numeric (c : column) : result (list Q) :=
  match c with NumCol l => Ok l | StrCol _ => Raise TypeError end.

(** [a * b] on two columns of one frame (same row labels). *)
Definition mul (a b : column) : result column :=
  x ← numeric a; y ← numeric b; mret (NumCol (zip_with Qmult x y)).

Fixpoint set_assoc {A} (k : string) (a : A) (l : list (string * A))
  : list (string * A) :=
  match l with
  | [] => [(k, a)]
  | (k', a') :: l' =>
      if String.eqb k k' then (k, a) :: l' else (k', a') :: set_assoc k a l'
  end.

(** [df[name] = c] for a column [c] carrying the frame's row labels. *)
Definition setcol (df : frame) (name : string) (c : column) : result frame :=
  if (col_length c =? length (index df))%nat
  then Ok {| index := index df; columns := set_assoc name c (columns df) |}
  else Raise (ValueError "Length of values does not match length of index").

(** Positional selection of rows, for the indexers a sort produces. A
    position outside the list selects nothing here (pandas raises
    [IndexError] for one); an indexer that permutes the positions, which is
    all an argsort returns, never has one. *)
Definition take {A} (indexer : list nat) (l : list A) : list A :=
  omap (λ i, l !! i) indexer.

Definition take_col (indexer : list nat) (c : column) : column :=
  match c with
  | StrCol l => StrCol (take indexer l)
  | NumCol l => NumCol (take indexer l)
  end.

Section sort_values.

(** The indexer numpy computes for a numeric sort key under the
    default [kind='quicksort'], for ascending ([true]) or descending
    order: a library routine, taken as a parameter. *)
Variable argsort : bool → list Q → list nat.

(** [df.sort_values(by=name, ascending=b)]. The script sorts by
    numeric columns only; other sort keys are not modelled. *)
Definition sort_values (df : frame) (by_ : string) (ascending : bool)
  : result frame :=
  c ← getcol df by_;
  keys ← numeric c;
  let indexer := argsort ascending keys in
  mret {| index := take indexer (index df);
          columns := map (λ kc, (kc.1, take_col indexer kc.2)) (columns df) |}.

End sort_values.

End pd.

(** ** The [predictions] table: a small relational store *)

Module sql.

Inductive value :=
  | NULL
  | Int (z : Z)
  | Text (s : string)
  | Float (q : Q)
  | Json (doc : list (string * Q))
  | Timestamp (t : Z).

Inductive type := SERIAL | VARCHAR (n : nat) | FLOAT | JSONB | TIMESTAMP.

Inductive default := NoDefault | CURRENT_TIMESTAMP.

Record column := {
  col_name : string;
  col_type : type;
  col_default : default;
  col_primary_key : bool
}.

(** [SERIAL] is a four-byte integer fed by a sequence. *)
Definition int4_min : Z := (-2147483648)%Z.
Definition int4_max : Z := 2147483647%Z.

Record table := {
  tbl_columns : list column;
  tbl_rows : list (list (string * value));
  tbl_serial : Z   (* the next value of the SERIAL sequence *)
}.

(** A connection: the committed relations and the view of the open
    transaction. *)
Record connection := {
  committed : gmap string table;
  working : gmap string table
}.

Definition connect (db : gmap string table) : connection :=
  {| committed := db; working := db |}.

Definition commit (c : connection) : connection :=
  {| committed := working c; working := working c |}.

(** [CREATE TABLE IF NOT EXISTS name (cols)] *)
Definition create_table_if_not_exists (name : string) (cols : list column)
    (c : connection) : connection :=
  match working c !! name with
  | Some _ => c
  | None =>
      {| committed := committed c;
         working := <[name := {| tbl_columns := cols; tbl_rows := [];
                                 tbl_serial := 1 |}]> (working c) |}
  end.

(** Storing a supplied value in a column of a given type. A [SERIAL]
    column takes no null and only four-byte integers. *)
Definition store (ty : type) (v : value) : result value :=
  match ty, v with
  | SERIAL, NULL => Raise (IntegrityError "null value violates not-null constraint")
  | _, NULL => Ok NULL
  | SERIAL, Int z =>
      if ((int4_min <=? z) && (z <=? int4_max))%Z then Ok (Int z)
      else Raise (DataError "integer out of range")
  | VARCHAR n, Text s =>
      if (String.length s <=? n)%nat then Ok (Text s)
      else Raise (DataError "value too long for type character varying")
  | FLOAT, Float q => Ok (Float q)
  | JSONB, Json doc => Ok (Json doc)
  | TIMESTAMP, Timestamp t => Ok (Timestamp t)
  | _, _ => Raise (ProgrammingError "column is of another type")
  end.

(** The default of a column: the next value of the sequence for [SERIAL]
    (none is left once the sequence has passed the last four-byte integer),
    the time of the statement for [DEFAULT CURRENT_TIMESTAMP], null
    otherwise. *)
Definition default_value (now serial : Z) (col : column) : result value :=
  match col_type col, col_default col with
  | SERIAL, _ =>
      if (serial <=? int4_max)%Z then Ok (Int serial)
      else Raise (DataError "nextval: reached maximum value of sequence")
  | _, CURRENT_TIMESTAMP => Ok (Timestamp now)
  | _, NoDefault => Ok NULL
  end.

(** The value of one column of a new row: the supplied value if the
    statement names the column, its default otherwise. *)
Definition fill (now serial : Z) (supplied : list (string * value))
    (col : column) : result (string * value) :=
  match pd.assoc (col_name col) supplied with
  | Some v => v' ← store (col_type col) v; mret (col_name col, v')
  | None => v' ← default_value now serial col; mret (col_name col, v')
  end.

Fixpoint fill_all (now serial : Z) (supplied : list (string * value))
    (cols : list column) : result (list (string * value)) :=
  match cols with
  | [] => Ok []
  | col :: cols' =>
      x ← fill now serial supplied col;
      xs ← fill_all now serial supplied cols';
      mret (x :: xs)
  end.

(** Equality of two stored values, as a unique index compares them (two
    nulls are never equal). *)
Definition value_eqb (a b : value) : bool :=
  match a, b with
  | Int x, Int y => (x =? y)%Z
  | Text x, Text y => String.eqb x y
  | Float x, Float y => Qeq_bool x y
  | Json x, Json y =>
      (length x =? length y)%nat &&
      forallb (λ xy, String.eqb xy.1.1 xy.2.1 && Qeq_bool xy.1.2 xy.2.2) (zip x y)
  | Timestamp x, Timestamp y => (x =? y)%Z
  | _, _ => false
  end.

(** Some stored row already has the value [v] in column [k]. *)
Definition key_taken (k : string) (v : value)
    (rows : list (list (string * value))) : bool :=
  existsb (λ r, match pd.assoc k r with
                | Some u => value_eqb u v
                | None => false
                end) rows.

(** The [PRIMARY KEY] constraint: in each key column the new row holds a
    value, and one that no stored row holds. *)
Fixpoint check_keys (cols : list column) (row : list (string * value))
    (rows : list (list (string * value))) : result unit :=
  match cols with
  | [] => Ok tt
  | col :: cols' =>
      if col_primary_key col then
        match pd.assoc (col_name col) row with
        | None | Some NULL =>
            Raise (IntegrityError "null value violates not-null constraint")
        | Some v =>
            if key_taken (col_name col) v rows
            then Raise (IntegrityError
                          "duplicate key value violates unique constraint")
            else check_keys cols' row rows
        end
      else check_keys cols' row rows
  end.

(** [INSERT INTO name (k1, ..., kn) VALUES (v1, ..., vn)] at time [now].
    A statement that fails changes nothing in the transaction (the
    exception ends the script before any commit); that PostgreSQL does not
    hand back a sequence value drawn by a failed statement is not
    modelled. *)
Definition insert_into (now : Z) (name : string)
    (supplied : list (string * value)) (c : connection) : result connection :=
  match working c !! name with
  | None => Raise (ProgrammingError "relation does not exist")
  | Some t =>
      if forallb (λ kv, bool_decide (kv.1 ∈ map col_name (tbl_columns t)))
           supplied
      then
        row ← fill_all now (tbl_serial t) supplied (tbl_columns t);
        _ ← check_keys (tbl_columns t) row (tbl_rows t);
        mret {| committed := committed c;
                working := <[name := {| tbl_columns := tbl_columns t;
                                        tbl_rows := tbl_rows t ++ [row];
                                        tbl_serial := tbl_serial t + 1 |}]>
                             (working c) |}
      else Raise (ProgrammingError "column does not exist")
  end.

End sql.

(** ** The script *)

Definition predictions_columns : list sql.column :=
  [ {| sql.col_name := "id"; sql.col_type := sql.SERIAL;
       sql.col_default := sql.NoDefault; sql.col_primary_key := true |};
    {| sql.col_name := "model_name"; sql.col_type := sql.VARCHAR 50;
       sql.col_default := sql.NoDefault;
       sql.col_primary_key := false |};
    {| sql.col_name := "prediction"; sql.col_type := sql.VARCHAR 10;
       sql.col_default := sql.NoDefault;
       sql.col_primary_key := false |};
    {| sql.col_name := "prediction_proba_benign"; sql.col_type := sql.FLOAT;
       sql.col_default := sql.NoDefault;
       sql.col_primary_key := false |};
    {| sql.col_name := "prediction_proba_malignant"; sql.col_type := sql.FLOAT;
       sql.col_default := sql.NoDefault;
       sql.col_primary_key := false |};
    {| sql.col_name := "input_data"; sql.col_type := sql.JSONB;
       sql.col_default := sql.NoDefault;
       sql.col_primary_key := false |};
    {| sql.col_name := "created_at"; sql.col_type := sql.TIMESTAMP;
       sql.col_default := sql.CURRENT_TIMESTAMP;
       sql.col_primary_key := false |} ].

(** Lines 47-59: create the table if it is absent, and commit. *)
Definition ensure_schema (c : sql.connection) : sql.connection :=
  sql.commit (sql.create_table_if_not_exists "predictions" predictions_columns c).

(** The sidebar widgets of one script run. *)
Record widgets := {
  selectbox : string;            (* "Select Model" *)
  number_input : string → Q;     (* "Enter <feature>:", by feature *)
  button : bool                  (* "Predict" *)
}.

(** Lines 97-101: the input dictionary, one entry per feature, in order. *)
Definition input_data (w : widgets) : list (string * Q) :=
  map (λ feature, (feature, number_input w feature)) features.

(** [input_df.iloc[0].values] for the one-row frame built from the
    dictionary. *)
Definition row_values (input_df : list (string * Q)) : list Q :=
  map snd input_df.

(** Lines 114-119 *)
Definition prediction_result (p : Z) : string :=
  if (p =? 1)%Z then "Malignant" else "Benign".

(** Lines 121-129 *)
Definition class_probabilities (prediction_proba : option (list (list Q)))
  : result (option Q * option Q) :=
  match prediction_proba with
  | Some proba =>
      row ← getitem proba 0;
      prediction_proba_benign ← getitem row 0;
      prediction_proba_malignant ← getitem row 1;
      mret (Some prediction_proba_benign, Some prediction_proba_malignant)
  | None => mret (None, None)
  end.

(** Lines 139-144 (logistic regression) *)
Definition lr_feature_contributions (coefs values : list Q) : result pd.frame :=
  contribution ← np.multiply coefs values;
  pd.DataFrame [ ("Feature", pd.StrCol features);
                 ("Coefficient", pd.NumCol coefs);
                 ("Value", pd.NumCol values);
                 ("Contribution", pd.NumCol contribution) ].

(** Lines 157-163 (tree-based models) *)
Definition tree_feature_contributions (model : Model) (values : list Q)
  : result pd.frame :=
  feature_importances ← getattr "feature_importances_" (feature_importances_ model);
  feature_contributions ←
    pd.DataFrame [ ("Feature", pd.StrCol features);
                   ("Importance", pd.NumCol feature_importances);
                   ("Value", pd.NumCol values) ];
  importance ← pd.getcol feature_contributions "Importance";
  value ← pd.getcol feature_contributions "Value";
  contribution ← pd.mul importance value;
  pd.setcol feature_contributions "Contribution" contribution.

(** Lines 76-79 *)
Definition global_importance_df (selected_model_name : string) (model : Model)
  : result pd.frame :=
  importance ← global_importance selected_model_name model;
  pd.DataFrame [ ("Feature", pd.StrCol features);
                 ("Importance", pd.NumCol importance) ].

(** What the right-hand column shows after "Predict". *)
Record explanation := {
  log_odds : option (list Q);
  probability : option (list Q);
  feature_contributions : pd.frame;
  feature_contributions_sorted : pd.frame
}.

Record prediction_view := {
  label : string;
  probabilities : option Q * option Q;
  explained : explanation
}.

Record page := {
  global_importance_df_sorted : pd.frame;
  predicted : option prediction_view
}.

Section script.

(** The environment of a run: the sorting routine of the library, numpy's
    exponential, the unpickler and the database clock. *)
Variable argsort : bool → list Q → list nat.
Variable exp : Q → Q.
Variable joblib_load : string → result Model.
Variable now : Z.

(** Line 28 *)
Definition load_model (selected_model_name : string) : result Model :=
  match pd.assoc selected_model_name model_paths with
  | Some path => joblib_load path
  | None => Raise (KeyError selected_model_name)
  end.

(** Lines 65-81 *)
Definition global_importance_view (selected_model_name : string)
    (model : Model) : result pd.frame :=
  df ← global_importance_df selected_model_name model;
  pd.sort_values argsort df "Importance" true.

(** Lines 132-148 *)
Definition explain_lr (model : Model) (input_df : list (string * Q))
  : result explanation :=
  coef ← getattr "coef_" (coef_ model);
  coefs ← getitem coef 0;
  icpt ← getattr "intercept_" (intercept_ model);
  intercept ← getitem icpt 0;
  d ← np.dot (row_values input_df) coefs;
  let log_odds := np.add_scalar intercept d in
  let probability := map (λ x, 1 / (1 + exp (- x)))%Q log_odds in
  contributions ← lr_feature_contributions coefs (row_values input_df);
  sorted ← pd.sort_values argsort contributions "Contribution" false;
  mret {| log_odds := Some log_odds; probability := Some probability;
          feature_contributions := contributions;
          feature_contributions_sorted := sorted |}.

(** Lines 155-167 *)
Definition explain_tree (model : Model) (input_df : list (string * Q))
  : result explanation :=
  contributions ← tree_feature_contributions model (row_values input_df);
  sorted ← pd.sort_values argsort contributions "Contribution" false;
  mret {| log_odds := None; probability := None;
          feature_contributions := contributions;
          feature_contributions_sorted := sorted |}.

Definition explain (selected_model_name : string) (model : Model)
    (input_df : list (string * Q)) : result explanation :=
  if String.eqb selected_model_name "Logistic Regression"
  then explain_lr model input_df
  else explain_tree model input_df.

Definition opt_float (x : option Q) : sql.value :=
  match x with Some q => sql.Float q | None => sql.NULL end.

(** Lines 174-186: the INSERT statement with its five parameters. *)
Definition insert_prediction (selected_model_name label : string)
    (proba : option Q * option Q) (input : list (string * Q))
    (c : sql.connection) : result sql.connection :=
  sql.insert_into now "predictions"
    [ ("model_name", sql.Text selected_model_name);
      ("prediction", sql.Text label);
      ("prediction_proba_benign", opt_float proba.1);
      ("prediction_proba_malignant", opt_float proba.2);
      ("input_data", sql.Json input) ] c.

(** Lines 107-188: the body of [if st.sidebar.button("Predict")]. *)
Definition on_predict (selected_model_name : string) (model : Model)
    (input : list (string * Q)) (c : sql.connection)
  : result (prediction_view * sql.connection) :=
  prediction ← predict model input;
  prediction_proba ←
    match predict_proba model with
    | Some f => Some <$> f input
    | None => mret None
    end;
  p ← getitem prediction 0;
  let label := prediction_result p in
  proba ← class_probabilities prediction_proba;
  e ← explain selected_model_name model input;
  c' ← insert_prediction selected_model_name label proba input c;
  mret ({| label := label; probabilities := proba; explained := e |},
        sql.commit c').

(** One run of the script over the database [db]: the committed relations
    when the run ends (normally or by an exception), and what the page
    shows. *)
Definition app (w : widgets) (db : gmap string sql.table)
  : gmap string sql.table * result page :=
  match load_model (selectbox w) with
  | Raise e => (db, Raise e)
  | Ok model =>
      let c := ensure_schema (sql.connect db) in
      match global_importance_view (selectbox w) model with
      | Raise e => (sql.committed c, Raise e)
      | Ok gi =>
          if button w then
            match on_predict (selectbox w) model (input_data w) c with
            | Raise e => (sql.committed c, Raise e)
            | Ok (v, c') =>
                (sql.committed c',
                 Ok {| global_importance_df_sorted := gi;
                       predicted := Some v |})
            end
          else
            (sql.committed c,
             Ok {| global_importance_df_sorted := gi; predicted := None |})
      end
  end.

End script.

(** ** What the library promises of its sorting routine

    Under the default [kind='quicksort'] the indexer is a permutation of
    the row positions that puts the keys in order; the documentation of
    [sort_values] names only [mergesort] and [stable] as stable. *)

Definition key_order (ascending : bool) : relation Q :=
  if ascending then Qle else flip Qle.

Definition argsort_contract (argsort : bool → list Q → list nat) : Prop :=
  ∀ ascending keys,
    argsort ascending keys ≡ₚ seq 0 (length keys) ∧
    Sorted (key_order ascending) (pd.take (argsort ascending keys) keys).

(** Two routines that keep this promise: a merge sort on (position, key)
    pairs that puts equal keys in the order of their positions
    ([stable = true]) or in the opposite order ([stable = false]). *)

Definition before (ascending stable : bool) (a b : nat * Q) : bool :=
  match (a.2 ?= b.2)%Q with
  | Lt => ascending
  | Gt => negb ascending
  | Eq => if stable then (a.1 <=? b.1)%nat else (b.1 <=? a.1)%nat
  end.

Definition argsort_with (stable ascending : bool) (keys : list Q) : list nat :=
  (merge_sort (λ a b, Is_true (before ascending stable a b)) (imap pair keys)).*1.

(** Rows with equal scores appear in the order of the feature schema:
    [labels] are the row labels (schema positions) and [scores] the sort
    keys of a presented frame. *)
Definition ties_in_schema_order (labels : list nat) (scores : list Q) : Prop :=
  ∀ p q i j x y,
    (p < q)%nat →
    labels !! p = Some i → labels !! q = Some j →
    scores !! p = Some x → scores !! q = Some y →
    (x == y)%Q → (i < j)%nat.

(** A presented frame is a reordering of the rows of the frame it was
    sorted from by one indexer, and its sort keys are in order. *)
Definition presents (ascending : bool) (by_ : string)
    (unsorted sorted : pd.frame) : Prop :=
  ∃ indexer keys,
    indexer ≡ₚ seq 0 (length keys) ∧
    pd.getcol unsorted by_ = Ok (pd.NumCol keys) ∧
    pd.index sorted = pd.take indexer (pd.index unsorted) ∧
    (∀ name, pd.getcol sorted name = pd.take_col indexer <$> pd.getcol unsorted name) ∧
    pd.getcol sorted by_ = Ok (pd.NumCol (pd.take indexer keys)) ∧
    Sorted (key_order ascending) (pd.take indexer keys).

(** The last row of the [predictions] table and a field of a row. *)
Definition last_prediction (db : gmap string sql.table)
  : option (list (string * sql.value)) :=
  t ← db !! "predictions"; last (sql.tbl_rows t).

Definition field (name : string) (row : list (string * sql.value))
  : option sql.value := pd.assoc name row.

(** The two probability fields of a stored row are both null or both
    non-null. *)
Definition both_or_neither (row : list (string * sql.value)) : Prop :=
  ∃ benign malignant,
    field "prediction_proba_benign" row = Some benign ∧
    field "prediction_proba_malignant" row = Some malignant ∧
    (benign = sql.NULL ↔ malignant = sql.NULL).

Definition audit_ok (db : gmap string sql.table) : Prop :=
  ∀ t row, db !! "predictions" = Some t → row ∈ sql.tbl_rows t →
           both_or_neither row.


(** ** Notions used for the further properties *)

(** The rows of the [predictions] table; none when the table is absent. *)
Definition stored_rows (db : gmap string sql.table)
  : list (list (string * sql.value)) :=
  match db !! "predictions" with
  | Some t => sql.tbl_rows t
  | None => []
  end.

(** The next key of the [predictions] table; 1 when the table is absent (the
    script creates it with a fresh sequence). *)
Definition next_key (db : gmap string sql.table) : Z :=
  match db !! "predictions" with
  | Some t => sql.tbl_serial t
  | None => 1%Z
  end.

(** The table has the columns the script declares, its keys increase along
    the rows and all lie below the next value of the sequence. *)
Definition keys_ok (t : sql.table) : Prop :=
  sql.tbl_columns t = predictions_columns ∧
  ∃ ids,
    Forall2 (λ row z, field "id" row = Some (sql.Int z)) (sql.tbl_rows t) ids ∧
    StronglySorted Z.lt ids ∧
    Forall (λ z, (z < sql.tbl_serial t)%Z) ids.

Definition keys_inv (db : gmap string sql.table) : Prop :=
  ∀ t, db !! "predictions" = Some t → keys_ok t.

(** The database once a run has connected and created its table (lines
    43-59). *)
Definition started (db : gmap string sql.table) : gmap string sql.table :=
  sql.committed (ensure_schema (sql.connect db)).

(** Two computations end alike: both return, or both raise the same
    exception. *)
Definition same_outcome {A B} (r1 : result A) (r2 : result B) : Prop :=
  match r1, r2 with
  | Ok _, Ok _ => True
  | Raise e1, Raise e2 => e1 = e2
  | _, _ => False
  end.

(** The sum of a column of scores. *)
Definition total (scores : list Q) : Q := foldr Qplus 0%Q scores.

(** The sidebar as the page first shows it for a model: every feature at
    0.0. *)
Definition zero_widgets (name : string) (clicked : bool) : widgets :=
  {| selectbox := name; number_input := λ _, 0%Q; button := clicked |}.

(** The Python class of an exception, as a traceback names it. *)
Definition exn_class (e : exn) : string :=
  match e with
  | AttributeError _ => "AttributeError"
  | NameError _ => "NameError"
  | KeyError _ => "KeyError"
  | IndexError => "IndexError"
  | TypeError => "TypeError"
  | ValueError _ => "ValueError"
  | ProgrammingError _ => "ProgrammingError"
  | DataError _ => "DataError"
  | IntegrityError _ => "IntegrityError"
  end.


(** ** Sample handles *)

Definition sample_lr : Model :=
  {| coef_ := Some [[ 2; -1; 0; 0; 0; 0; 0; 0; 0; 0;
                      0; 0; (1 # 2); 0; 0; 0; 0; 0; 3 ]%Q];
     intercept_ := Some [(-1 # 4)%Q];
     feature_importances_ := None;
     predict := λ _, Ok [1%Z];
     predict_proba := Some (λ _, Ok [[(1 # 10); (9 # 10)]%Q]) |}.

Definition sample_tree : Model :=
  {| coef_ := None;
     intercept_ := None;
     feature_importances_ :=
       Some [ (1 # 2); 0; (1 # 4); 0; 0; 0; 0; 0; 0; 0;
              0; 0; (1 # 4); 0; 0; 0; 0; 0; 0 ]%Q;
     predict := λ _, Ok [0%Z];
     predict_proba := None |}.


(** A Logistic Regression object with 18 coefficients. *)
Definition sample_lr_18 : Model :=
  {| coef_ := Some [[ 2; -1; 0; 0; 0; 0; 0; 0; 0; 0;
                      0; 0; (1 # 2); 0; 0; 0; 0; 0 ]%Q];
     intercept_ := Some [0%Q];
     feature_importances_ := None;
     predict := λ _, Ok [1%Z];
     predict_proba := None |}.

(** A tree-based object whose [predict] returns no label and whose
    [predict_proba] returns a row with one entry. *)
Definition sample_out_of_shape : Model :=
  {| coef_ := None;
     intercept_ := None;
     feature_importances_ := feature_importances_ sample_tree;
     predict := λ _, Ok [];
     predict_proba := Some (λ _, Ok [[(1 # 2)%Q]]) |}.

Definition sample_load (path : string) : result Model :=
  if String.eqb path "models/logistic_regression.pkl" then Ok sample_lr
  else Ok sample_tree.

Definition sample_widgets (name : string) : widgets :=
  {| selectbox := name;
     number_input := λ feature,
       if String.eqb feature "radius_mean" then (3 # 2)%Q
       else if String.eqb feature "area_se" then 2%Q else 0%Q;
     button := true |}.

(** * Properties *)

(** ** The error monad *)

Lemma bind_Ok {A B} (m : result A) (f : A → result B) (b : B) :
  m ≫= f = Ok b ↔ ∃ a, m = Ok a ∧ f a = Ok b.
Proof.
  split.
  - destruct m as [a|e]; simpl; [eauto | discriminate].
  - intros (a & -> & Hf). exact Hf.
Qed.

Lemma fmap_Ok {A B} (g : A → B) (m : result A) (b : B) :
  g <$> m = Ok b ↔ ∃ a, m = Ok a ∧ b = g a.
Proof.
  split.
  - destruct m as [a|e]; simpl; [| discriminate].
    intros [= <-]. eauto.
  - intros (a & -> & ->). reflexivity.
Qed.

Lemma run_completed {A B} (r : A * result B) (b : B) :
  r.2 = Ok b → r = (r.1, Ok b).
Proof. destruct r as [a r]. cbn [fst snd]. by intros ->. Qed.

Lemma getitem_Ok {A} (xs : list A) (i : nat) (x : A) :
  getitem xs i = Ok x ↔ xs !! i = Some x.
Proof.
  unfold getitem. destruct (xs !! i); split; congruence.
Qed.

Lemma getattr_Ok {A} (attr : string) (o : option A) (a : A) :
  getattr attr o = Ok a ↔ o = Some a.
Proof. destruct o; simpl; split; congruence. Qed.

(** Splits a hypothesis [x ← m; k = Ok b] into [m = Ok a] and [k a = Ok b]. *)
Ltac ok_bind H a Ha :=
  apply bind_Ok in H; destruct H as (a & Ha & H).

(** ** Model names *)

Lemma tree_based_not_lr (name : string) :
  name ∈ tree_based_models → String.eqb name "Logistic Regression" = false.
Proof.
  unfold tree_based_models. rewrite !elem_of_cons, elem_of_nil.
  intros [-> | [-> | [-> | [-> | []]]]]; reflexivity.
Qed.

Lemma length_features : length features = 19%nat.
Proof. reflexivity. Qed.

Lemma length_input_data (w : widgets) :
  length (row_values (input_data w)) = length features.
Proof. unfold row_values, input_data. by rewrite !length_map. Qed.

Lemma lookup_input_data (w : widgets) (i : nat) (feature : string) :
  features !! i = Some feature →
  row_values (input_data w) !! i = Some (number_input w feature).
Proof.
  intros Hf. unfold row_values, input_data.
  rewrite !list_lookup_fmap, Hf. reflexivity.
Qed.

(** ** Global importance *)

(** C6: for Logistic Regression the global importance of each feature is the
    absolute value of that feature's coefficient; for the tree-based models
    it is the model's [feature_importances_], unchanged. *)
Theorem global_importance_scores (model : Model) :
  (∀ coefs rest,
      coef_ model = Some (coefs :: rest) →
      ∃ scores,
        global_importance "Logistic Regression" model = Ok scores ∧
        length scores = length coefs ∧
        ∀ i c, coefs !! i = Some c → scores !! i = Some (Qabs c)) ∧
  (∀ name importances,
      name ∈ tree_based_models →
      feature_importances_ model = Some importances →
      global_importance name model = Ok importances).
Proof.
  split.
  - intros coefs rest Hcoef. exists (map Qabs coefs).
    unfold global_importance. simpl. rewrite Hcoef. simpl.
    split; [reflexivity |]. split; [apply length_map |].
    intros i c Hi. by rewrite list_lookup_fmap, Hi.
  - intros name importances Hname Himp.
    unfold global_importance.
    rewrite (tree_based_not_lr _ Hname), bool_decide_eq_true_2 by done.
    by rewrite Himp.
Qed.

Lemma global_importance_scores_witness :
  (∃ scores,
      global_importance "Logistic Regression" sample_lr = Ok scores ∧
      length scores = 19%nat ∧
      scores !! 1%nat = Some (Qabs (-1))) ∧
  global_importance "XGBoost" sample_tree
  = Ok [ (1 # 2); 0; (1 # 4); 0; 0; 0; 0; 0; 0; 0;
         0; 0; (1 # 4); 0; 0; 0; 0; 0; 0 ]%Q.
Proof.
  destruct (global_importance_scores sample_lr) as [Hlr _].
  destruct (global_importance_scores sample_tree) as [_ Htree].
  split.
  - destruct (Hlr _ [] eq_refl) as (scores & Hs & Hlen & Hlook).
    exists scores. split; [exact Hs |]. split; [exact Hlen |].
    apply Hlook. reflexivity.
  - apply Htree; [| reflexivity].
    unfold tree_based_models. rewrite !elem_of_cons. tauto.
Defined.

(** ** The label *)

Lemma prediction_result_cases (p : Z) :
  (p = 1%Z → prediction_result p = "Malignant") ∧
  (p ≠ 1%Z → prediction_result p = "Benign") ∧
  (prediction_result p = "Malignant" ∨ prediction_result p = "Benign").
Proof.
  unfold prediction_result.
  destruct (Z.eqb_spec p 1) as [-> | Hne]; repeat split; auto; done.
Qed.

(** ** Frames *)

Lemma DataFrame_Ok (k : string) (c : pd.column) (rest : list (string * pd.column)) :
  Forall (λ kc, pd.col_length kc.2 = pd.col_length c) rest →
  pd.DataFrame ((k, c) :: rest)
  = Ok {| pd.index := seq 0 (pd.col_length c); pd.columns := (k, c) :: rest |}.
Proof.
  intros Hall. unfold pd.DataFrame.
  replace (forallb _ rest) with true; [reflexivity |].
  symmetry. apply forallb_forall. intros kc Hin.
  rewrite Forall_forall in Hall. apply Nat.eqb_eq, Hall.
  by apply list_elem_of_In.
Qed.

Lemma DataFrame_mismatch (k : string) (c : pd.column)
    (rest : list (string * pd.column)) :
  Exists (λ kc, pd.col_length kc.2 ≠ pd.col_length c) rest →
  pd.DataFrame ((k, c) :: rest)
  = Raise (ValueError "All arrays must be of the same length").
Proof.
  intros Hex. unfold pd.DataFrame.
  replace (forallb _ rest) with false; [reflexivity |].
  symmetry. apply not_true_is_false. intros Hall.
  rewrite forallb_forall in Hall. apply Exists_exists in Hex.
  destruct Hex as (kc & Hin & Hne). apply Hne, Nat.eqb_eq, Hall.
  by apply list_elem_of_In.
Qed.

Lemma sort_values_Ok (argsort : bool → list Q → list nat) (df : pd.frame)
    (by_ : string) (ascending : bool) (keys : list Q) :
  pd.getcol df by_ = Ok (pd.NumCol keys) →
  pd.sort_values argsort df by_ ascending
  = Ok {| pd.index := pd.take (argsort ascending keys) (pd.index df);
          pd.columns :=
            map (λ kc, (kc.1, pd.take_col (argsort ascending keys) kc.2))
              (pd.columns df) |}.
Proof. intros Hcol. unfold pd.sort_values. rewrite Hcol. reflexivity. Qed.

Lemma multiply_same_length (a b : list Q) :
  length a = length b → np.multiply a b = Ok (zip_with Qmult a b).
Proof. intros Hlen. unfold np.multiply. by rewrite Hlen, Nat.eqb_refl. Qed.

Lemma lookup_zip_with_Qmult (a b : list Q) (i : nat) (x y : Q) :
  a !! i = Some x → b !! i = Some y →
  zip_with Qmult a b !! i = Some (x * y)%Q.
Proof. intros Ha Hb. by rewrite lookup_zip_with, Ha, Hb. Qed.

(** ** Local contributions *)

Lemma lr_feature_contributions_Ok (coefs values : list Q) :
  length coefs = length features → length values = length features →
  lr_feature_contributions coefs values
  = Ok {| pd.index := seq 0 (length features);
          pd.columns :=
            [ ("Feature", pd.StrCol features);
              ("Coefficient", pd.NumCol coefs);
              ("Value", pd.NumCol values);
              ("Contribution", pd.NumCol (zip_with Qmult coefs values)) ] |}.
Proof.
  intros Hc Hv. unfold lr_feature_contributions.
  rewrite multiply_same_length by congruence.
  change (Ok ?x ≫= ?f) with (f x). cbv beta.
  rewrite DataFrame_Ok; [reflexivity |].
  repeat constructor; cbn [pd.col_length snd]; try done.
  rewrite length_zip_with. lia.
Qed.

Lemma tree_feature_contributions_Ok (model : Model)
    (importances values : list Q) :
  feature_importances_ model = Some importances →
  length importances = length features → length values = length features →
  tree_feature_contributions model values
  = Ok {| pd.index := seq 0 (length features);
          pd.columns :=
            [ ("Feature", pd.StrCol features);
              ("Importance", pd.NumCol importances);
              ("Value", pd.NumCol values);
              ("Contribution", pd.NumCol (zip_with Qmult importances values)) ] |}.
Proof.
  intros Hfi Hi Hv. unfold tree_feature_contributions.
  rewrite Hfi. cbn [getattr]. change (Ok ?x ≫= ?f) with (f x). cbv beta.
  rewrite DataFrame_Ok by (repeat constructor; cbn [pd.col_length snd]; done).
  change (Ok ?x ≫= ?f) with (f x). cbv beta.
  unfold pd.setcol.
  cbn [pd.getcol pd.columns pd.assoc String.eqb Ascii.eqb Bool.eqb pd.index
       pd.col_length pd.mul pd.numeric mbind result_bind mret result_ret
       pd.set_assoc].
  rewrite length_zip_with, length_seq.
  replace (_ =? _)%nat with true; [reflexivity |].
  symmetry. apply Nat.eqb_eq. cbn [pd.col_length]. lia.
Qed.

Lemma explain_lr_Ok (argsort : bool → list Q → list nat) (exp : Q → Q)
    (model : Model) (w : widgets) (coefs : list Q) (rest : list (list Q))
    (intercept : Q) (rest' : list Q) :
  coef_ model = Some (coefs :: rest) →
  intercept_ model = Some (intercept :: rest') →
  length coefs = length features →
  ∃ e contributions,
    explain_lr argsort exp model (input_data w) = Ok e ∧
    lr_feature_contributions coefs (row_values (input_data w)) = Ok contributions ∧
    feature_contributions e = contributions ∧
    log_odds e = Some [(intercept + np.inner (row_values (input_data w)) coefs)%Q] ∧
    pd.sort_values argsort contributions "Contribution" false
    = Ok (feature_contributions_sorted e).
Proof.
  intros Hcoef Hint Hlen.
  pose proof (lr_feature_contributions_Ok coefs (row_values (input_data w))
                Hlen (length_input_data w)) as Hfc.
  unfold explain_lr. rewrite Hcoef, Hint.
  cbn [getattr getitem lookup list_lookup mbind result_bind].
  unfold np.dot. rewrite length_input_data, <- Hlen, Nat.eqb_refl.
  cbn [mbind result_bind]. rewrite Hfc. cbn [mbind result_bind].
  erewrite sort_values_Ok by reflexivity.
  cbn [mbind result_bind mret result_ret].
  eexists _, _. split; [reflexivity |]. split; [reflexivity |].
  split; [reflexivity |]. split; [reflexivity |].
  cbn [feature_contributions_sorted]. reflexivity.
Qed.

Lemma explain_tree_Ok (argsort : bool → list Q → list nat) (model : Model)
    (w : widgets) (importances : list Q) :
  feature_importances_ model = Some importances →
  length importances = length features →
  ∃ e contributions,
    explain_tree argsort model (input_data w) = Ok e ∧
    tree_feature_contributions model (row_values (input_data w)) = Ok contributions ∧
    feature_contributions e = contributions ∧
    pd.sort_values argsort contributions "Contribution" false
    = Ok (feature_contributions_sorted e).
Proof.
  intros Hfi Hlen.
  pose proof (tree_feature_contributions_Ok model importances
                (row_values (input_data w)) Hfi Hlen (length_input_data w)) as Hfc.
  unfold explain_tree. rewrite Hfc. cbn [mbind result_bind].
  erewrite sort_values_Ok by reflexivity.
  cbn [mbind result_bind mret result_ret].
  eexists _, _. split; [reflexivity |]. split; [reflexivity |].
  split; [reflexivity |]. cbn [feature_contributions_sorted]. reflexivity.
Qed.

(** C1: for a Logistic Regression handle and the feature vector entered in
    the sidebar, the explanation is computed and the Contribution of
    feature i is the signed product coefficient[i] * input[i], for every
    feature of the schema. *)
Theorem lr_contribution_is_coef_times_value
    (argsort : bool → list Q → list nat) (exp : Q → Q)
    (model : Model) (w : widgets) (coefs : list Q) (rest : list (list Q))
    (intercept : Q) (rest' : list Q) :
  coef_ model = Some (coefs :: rest) →
  intercept_ model = Some (intercept :: rest') →
  length coefs = length features →
  ∃ e scores,
    explain argsort exp "Logistic Regression" model (input_data w) = Ok e ∧
    pd.getcol (feature_contributions e) "Feature" = Ok (pd.StrCol features) ∧
    pd.getcol (feature_contributions e) "Contribution" = Ok (pd.NumCol scores) ∧
    length scores = length features ∧
    ∀ i feature c,
      features !! i = Some feature → coefs !! i = Some c →
      scores !! i = Some (c * number_input w feature)%Q.
Proof.
  intros Hcoef Hint Hlen.
  destruct (explain_lr_Ok argsort exp model w _ _ _ _ Hcoef Hint Hlen)
    as (e & fc & He & Hfc & Hefc & _ & _).
  rewrite lr_feature_contributions_Ok in Hfc
    by (done || apply length_input_data).
  injection Hfc as <-.
  exists e, (zip_with Qmult coefs (row_values (input_data w))).
  split; [exact He |]. rewrite Hefc.
  split; [reflexivity |]. split; [reflexivity |].
  split.
  - rewrite length_zip_with, length_input_data. lia.
  - intros i feature c Hf Hc.
    apply lookup_zip_with_Qmult; [exact Hc |].
    by apply lookup_input_data.
Qed.

Lemma lr_contribution_is_coef_times_value_witness :
  ∃ e scores,
    explain (argsort_with true) (λ _, 1%Q) "Logistic Regression" sample_lr
      (input_data (sample_widgets "Logistic Regression")) = Ok e ∧
    pd.getcol (feature_contributions e) "Contribution" = Ok (pd.NumCol scores) ∧
    scores !! 1%nat = Some (-1 * 2)%Q ∧
    scores !! 12%nat = Some ((1 # 2) * (3 # 2))%Q.
Proof.
  destruct (lr_contribution_is_coef_times_value (argsort_with true) (λ _, 1%Q)
              sample_lr (sample_widgets "Logistic Regression")
              _ [] _ [] eq_refl eq_refl eq_refl)
    as (e & scores & He & _ & Hs & _ & Hlook).
  exists e, scores. split; [exact He |]. split; [exact Hs |].
  split.
  - apply (Hlook 1%nat "area_se"); reflexivity.
  - apply (Hlook 12%nat "radius_mean"); reflexivity.
Defined.

(** C5: for a tree-based handle and the feature vector entered in the
    sidebar, the explanation is computed and the Contribution of feature i
    is exactly importance[i] * input[i]; it is non-negative whenever
    importance[i] >= 0 and input[i] >= 0. *)
Theorem tree_contribution_is_importance_times_value
    (argsort : bool → list Q → list nat) (exp : Q → Q)
    (name : string) (model : Model) (w : widgets) (importances : list Q) :
  name ∈ tree_based_models →
  feature_importances_ model = Some importances →
  length importances = length features →
  ∃ e scores,
    explain argsort exp name model (input_data w) = Ok e ∧
    pd.getcol (feature_contributions e) "Feature" = Ok (pd.StrCol features) ∧
    pd.getcol (feature_contributions e) "Contribution" = Ok (pd.NumCol scores) ∧
    length scores = length features ∧
    ∀ i feature imp,
      features !! i = Some feature → importances !! i = Some imp →
      scores !! i = Some (imp * number_input w feature)%Q ∧
      ((0 <= imp)%Q → (0 <= number_input w feature)%Q →
       (0 <= imp * number_input w feature)%Q).
Proof.
  intros Hname Hfi Hlen.
  destruct (explain_tree_Ok argsort model w _ Hfi Hlen)
    as (e & fc & He & Hfc & Hefc & _).
  rewrite (tree_feature_contributions_Ok model importances) in Hfc
    by (done || apply length_input_data).
  injection Hfc as <-.
  exists e, (zip_with Qmult importances (row_values (input_data w))).
  unfold explain. rewrite (tree_based_not_lr _ Hname).
  split; [exact He |]. rewrite Hefc.
  split; [reflexivity |]. split; [reflexivity |].
  split.
  - rewrite length_zip_with, length_input_data. lia.
  - intros i feature imp Hf Himp. split.
    + apply lookup_zip_with_Qmult; [exact Himp |].
      by apply lookup_input_data.
    + apply Qmult_le_0_compat.
Qed.

Lemma tree_contribution_is_importance_times_value_witness :
  ∃ e scores,
    explain (argsort_with true) (λ _, 1%Q) "LightGBM" sample_tree
      (input_data (sample_widgets "LightGBM")) = Ok e ∧
    pd.getcol (feature_contributions e) "Contribution" = Ok (pd.NumCol scores) ∧
    scores !! 12%nat = Some ((1 # 4) * (3 # 2))%Q ∧
    (0 <= (1 # 4) * (3 # 2))%Q.
Proof.
  assert (Hname : "LightGBM" ∈ tree_based_models).
  { unfold tree_based_models. rewrite !elem_of_cons. tauto. }
  destruct (tree_contribution_is_importance_times_value (argsort_with true)
              (λ _, 1%Q) "LightGBM" sample_tree (sample_widgets "LightGBM")
              _ Hname eq_refl eq_refl)
    as (e & scores & He & _ & Hs & _ & Hlook).
  exists e, scores. split; [exact He |]. split; [exact Hs |].
  destruct (Hlook 12%nat "radius_mean" (1 # 4)%Q eq_refl eq_refl) as [H1 H2].
  split; [exact H1 |].
  apply H2; discriminate.
Defined.

(** ** The audit table *)

Lemma ensure_schema_present (c : sql.connection) :
  is_Some (sql.working (ensure_schema c) !! "predictions") ∧
  sql.committed (ensure_schema c) = sql.working (ensure_schema c).
Proof.
  unfold ensure_schema, sql.create_table_if_not_exists, sql.commit.
  destruct (sql.working c !! "predictions") as [t|] eqn:Hlook;
    cbn [sql.working sql.committed].
  - rewrite Hlook. eauto.
  - rewrite lookup_insert_eq. eauto.
Qed.

Lemma ensure_schema_existing (c : sql.connection) :
  is_Some (sql.working c !! "predictions") →
  ensure_schema c = sql.commit c.
Proof.
  intros [t Ht]. unfold ensure_schema, sql.create_table_if_not_exists.
  by rewrite Ht.
Qed.

(** C8: creating the schema is idempotent. A second call in sequence leaves
    the connection as the first call left it; on a start where the
    [predictions] table already exists the database is unchanged (no second
    table, no row lost); and a start after a start changes nothing. The
    operation is a total function: it cannot raise. *)
Theorem ensure_schema_idempotent :
  (∀ c, ensure_schema (ensure_schema c) = ensure_schema c) ∧
  (∀ db, is_Some (db !! "predictions") →
         sql.committed (ensure_schema (sql.connect db)) = db) ∧
  (∀ db db1, db1 = sql.committed (ensure_schema (sql.connect db)) →
         is_Some (db1 !! "predictions") ∧
         sql.committed (ensure_schema (sql.connect db1)) = db1).
Proof.
  assert (Hstart : ∀ db, is_Some (db !! "predictions") →
            sql.committed (ensure_schema (sql.connect db)) = db).
  { intros db Hsome. by rewrite ensure_schema_existing. }
  split; [| split].
  - intros c. destruct (ensure_schema_present c) as [Hsome Heq].
    rewrite (ensure_schema_existing (ensure_schema c) Hsome).
    unfold sql.commit. destruct (ensure_schema c) as [cm wk].
    cbn [sql.committed sql.working] in *. by rewrite Heq.
  - exact Hstart.
  - intros db db1 ->.
    destruct (ensure_schema_present (sql.connect db)) as [Hsome Heq].
    rewrite Heq. split; [exact Hsome |].
    rewrite <- Heq at 2. apply Hstart. by rewrite Heq.
Qed.

Lemma ensure_schema_idempotent_witness :
  ensure_schema (ensure_schema (sql.connect ∅)) = ensure_schema (sql.connect ∅) ∧
  sql.committed (ensure_schema (sql.connect
     {[ "predictions" := {| sql.tbl_columns := predictions_columns;
                            sql.tbl_rows := [[("id", sql.Int 1)]];
                            sql.tbl_serial := 2 |} ]}))
  = {[ "predictions" := {| sql.tbl_columns := predictions_columns;
                           sql.tbl_rows := [[("id", sql.Int 1)]];
                           sql.tbl_serial := 2 |} ]} ∧
  sql.committed (ensure_schema (sql.connect
     (sql.committed (ensure_schema (sql.connect ∅)))))
  = sql.committed (ensure_schema (sql.connect ∅)).
Proof.
  destruct ensure_schema_idempotent as (Hidem & Hstart & Hagain).
  split; [apply Hidem |]. split.
  - apply Hstart. rewrite lookup_singleton_eq. eauto.
  - apply (Hagain ∅ _ eq_refl).
Defined.

(** *** Stored values *)

Lemma store_null (ty : sql.type) (v v' : sql.value) :
  sql.store ty v = Ok v' → (v = sql.NULL ↔ v' = sql.NULL).
Proof.
  destruct ty, v; cbn [sql.store]; try discriminate;
    try (intros [= <-]; split; congruence).
  - destruct (_ && _); [| discriminate].
    intros [= <-]. split; congruence.
  - destruct (_ <=? _)%nat; [| discriminate].
    intros [= <-]. split; congruence.
Qed.

Lemma store_float (ty : sql.type) (q : Q) (v' : sql.value) :
  sql.store ty (sql.Float q) = Ok v' → v' = sql.Float q.
Proof. destruct ty; cbn [sql.store]; congruence. Qed.

Lemma store_text (ty : sql.type) (s : string) (v' : sql.value) :
  sql.store ty (sql.Text s) = Ok v' → v' = sql.Text s.
Proof.
  destruct ty; cbn [sql.store]; try congruence.
  destruct (_ <=? _)%nat; congruence.
Qed.

Lemma assoc_Some_elem {A} (k : string) (l : list (string * A)) (a : A) :
  pd.assoc k l = Some a → (k, a) ∈ l.
Proof.
  induction l as [| [k' a'] l IH]; cbn [pd.assoc]; [discriminate |].
  destruct (String.eqb_spec k k') as [-> | Hne].
  - intros [= ->]. apply elem_of_cons. by left.
  - intros Hl. apply elem_of_cons. right. by apply IH.
Qed.

Lemma fill_all_field (now serial : Z) (supplied : list (string * sql.value))
    (cols : list sql.column) (row : list (string * sql.value))
    (k : string) (v : sql.value) :
  sql.fill_all now serial supplied cols = Ok row →
  k ∈ map sql.col_name cols →
  pd.assoc k supplied = Some v →
  ∃ ty v', field k row = Some v' ∧ sql.store ty v = Ok v'.
Proof.
  revert row. induction cols as [| col cols IH]; intros row Hfill Hk Hv.
  - by apply elem_of_nil in Hk.
  - cbn [sql.fill_all] in Hfill.
    ok_bind Hfill x Hx. ok_bind Hfill xs Hxs. injection Hfill as <-.
    unfold field. cbn [pd.assoc].
    assert (Hx1 : x.1 = sql.col_name col).
    { unfold sql.fill in Hx. destruct (pd.assoc (sql.col_name col) supplied).
      - ok_bind Hx stored Hstored. by injection Hx as <-.
      - ok_bind Hx initial Hinitial. by injection Hx as <-. }
    destruct x as [k0 v0]. cbn [fst] in Hx1. subst k0.
    destruct (String.eqb_spec k (sql.col_name col)) as [-> | Hne].
    + unfold sql.fill in Hx. rewrite Hv in Hx.
      ok_bind Hx v1 Hv1. injection Hx as <-. eauto.
    + cbn [map] in Hk. apply elem_of_cons in Hk as [? | Hk]; [done |].
      by apply IH.
Qed.

Lemma insert_into_inv (now : Z) (name : string)
    (supplied : list (string * sql.value)) (c c1 : sql.connection) :
  sql.insert_into now name supplied c = Ok c1 →
  ∃ t row,
    sql.working c !! name = Some t ∧
    Forall (λ kv, kv.1 ∈ map sql.col_name (sql.tbl_columns t)) supplied ∧
    sql.fill_all now (sql.tbl_serial t) supplied (sql.tbl_columns t) = Ok row ∧
    c1 = {| sql.committed := sql.committed c;
            sql.working :=
              <[name := {| sql.tbl_columns := sql.tbl_columns t;
                           sql.tbl_rows := sql.tbl_rows t ++ [row];
                           sql.tbl_serial := sql.tbl_serial t + 1 |}]>
                (sql.working c) |}.
Proof.
  unfold sql.insert_into. intros Hins.
  destruct (sql.working c !! name) as [t|]; [| discriminate].
  destruct (forallb _ supplied) eqn:Hall; [| discriminate].
  ok_bind Hins row Hrow. ok_bind Hins checked Hkeys. injection Hins as <-.
  exists t, row. split; [reflexivity |]. split; [| split; done].
  apply Forall_forall. intros kv Hin.
  rewrite forallb_forall in Hall.
  apply list_elem_of_In, Hall in Hin. by apply bool_decide_eq_true in Hin.
Qed.

(** *** One prediction request *)

Section request.

Variable argsort : bool → list Q → list nat.
Variable exp : Q → Q.
Variable joblib_load : string → result Model.
Variable now : Z.

Lemma on_predict_inv (name : string) (model : Model)
    (input : list (string * Q)) (c c' : sql.connection) (v : prediction_view) :
  on_predict argsort exp now name model input c = Ok (v, c') →
  ∃ prediction p prediction_proba e c1,
    predict model input = Ok prediction ∧
    prediction !! 0%nat = Some p ∧
    match predict_proba model with
    | Some f => f input = Ok (default [] prediction_proba) ∧ is_Some prediction_proba
    | None => prediction_proba = None
    end ∧
    class_probabilities prediction_proba = Ok (probabilities v) ∧
    explain argsort exp name model input = Ok e ∧
    insert_prediction now name (prediction_result p) (probabilities v) input c
    = Ok c1 ∧
    label v = prediction_result p ∧
    c' = sql.commit c1.
Proof.
  unfold on_predict. intros H.
  ok_bind H prediction Hpred. ok_bind H pp Hpp. ok_bind H p Hp.
  ok_bind H proba Hproba. ok_bind H e He. ok_bind H c1 Hc1.
  injection H as <- <-. apply getitem_Ok in Hp.
  exists prediction, p, pp, e, c1. cbn [probabilities label].
  repeat split; try done.
  destruct (predict_proba model) as [f|].
  - apply fmap_Ok in Hpp as (a & Ha & ->). cbn [default]. eauto.
  - by injection Hpp as <-.
Qed.

Lemma app_predicted_inv (w : widgets) (db db' : gmap string sql.table)
    (pg : page) (v : prediction_view) :
  app argsort exp joblib_load now w db = (db', Ok pg) →
  predicted pg = Some v →
  ∃ model c',
    load_model joblib_load (selectbox w) = Ok model ∧
    on_predict argsort exp now (selectbox w) model (input_data w)
      (ensure_schema (sql.connect db)) = Ok (v, c') ∧
    db' = sql.committed c'.
Proof.
  unfold app. intros Happ Hv.
  destruct (load_model joblib_load (selectbox w)) as [model|]; [| congruence].
  destruct (global_importance_view argsort (selectbox w) model); [| congruence].
  destruct (button w).
  - destruct (on_predict _ _ _ _ _ _ _) as [[v' c']|] eqn:Hon; [| congruence].
    injection Happ as <- <-. cbn [predicted] in Hv. injection Hv as ->.
    eauto.
  - injection Happ as <- <-. discriminate.
Qed.

(** The row a completed request stores: it is appended to the table, and
    each supplied field holds the value handed to the INSERT statement. *)
Lemma insert_prediction_row (name lbl : string) (proba : option Q * option Q)
    (input : list (string * Q)) (c c1 : sql.connection) :
  insert_prediction now name lbl proba input c = Ok c1 →
  ∃ t row,
    sql.working c !! "predictions" = Some t ∧
    sql.working c1
    = <["predictions" := {| sql.tbl_columns := sql.tbl_columns t;
                            sql.tbl_rows := sql.tbl_rows t ++ [row];
                            sql.tbl_serial := sql.tbl_serial t + 1 |}]>
        (sql.working c) ∧
    last_prediction (sql.committed (sql.commit c1)) = Some row ∧
    field "model_name" row = Some (sql.Text name) ∧
    field "prediction" row = Some (sql.Text lbl) ∧
    field "prediction_proba_benign" row = Some (opt_float proba.1) ∧
    field "prediction_proba_malignant" row = Some (opt_float proba.2).
Proof.
  unfold insert_prediction. intros Hins.
  apply insert_into_inv in Hins as (t & row & Ht & Hall & Hrow & ->).
  exists t, row. split; [exact Ht |]. split; [reflexivity |].
  split.
  { unfold last_prediction. cbn [sql.commit sql.committed sql.working].
    rewrite lookup_insert_eq. cbn [mbind option_bind sql.tbl_rows].
    apply last_snoc. }
  assert (Hfield : ∀ k v, pd.assoc k
            [ ("model_name", sql.Text name); ("prediction", sql.Text lbl);
              ("prediction_proba_benign", opt_float proba.1);
              ("prediction_proba_malignant", opt_float proba.2);
              ("input_data", sql.Json input) ] = Some v →
            ∃ ty v', field k row = Some v' ∧ sql.store ty v = Ok v').
  { intros k v Hk. eapply fill_all_field; [exact Hrow | | exact Hk].
    rewrite Forall_forall in Hall.
    apply (Hall (k, v)). by apply assoc_Some_elem. }
  repeat split.
  - destruct (Hfield "model_name" _ eq_refl) as (ty & v' & -> & Hst).
    by apply store_text in Hst as ->.
  - destruct (Hfield "prediction" _ eq_refl) as (ty & v' & -> & Hst).
    by apply store_text in Hst as ->.
  - destruct (Hfield "prediction_proba_benign" _ eq_refl) as (ty & v' & -> & Hst).
    destruct proba as [[b|] m]; cbn [opt_float fst] in *.
    + by apply store_float in Hst as ->.
    + apply store_null in Hst. f_equal. by apply Hst.
  - destruct (Hfield "prediction_proba_malignant" _ eq_refl) as (ty & v' & -> & Hst).
    destruct proba as [b [m|]]; cbn [opt_float snd] in *.
    + by apply store_float in Hst as ->.
    + apply store_null in Hst. f_equal. by apply Hst.
Qed.

End request.

Lemma class_probabilities_cases (prediction_proba : option (list (list Q)))
    (proba : option Q * option Q) :
  class_probabilities prediction_proba = Ok proba →
  (prediction_proba = None ∧ proba = (None, None)) ∨
  (∃ rows r b m,
      prediction_proba = Some rows ∧ rows !! 0%nat = Some r ∧
      r !! 0%nat = Some b ∧ r !! 1%nat = Some m ∧ proba = (Some b, Some m)).
Proof.
  destruct prediction_proba as [rows|]; cbn [class_probabilities].
  - intros H. ok_bind H r Hr. ok_bind H b Hb. ok_bind H m Hm.
    injection H as <-. apply getitem_Ok in Hr, Hb, Hm.
    right. by exists rows, r, b, m.
  - intros [= <-]. by left.
Qed.

(** C7: a completed request stores its row last in the table. When the
    model object has no [predict_proba], the request's probabilities are
    absent and both probability fields of the row are null; when it has
    one, both probabilities are present, they are the two entries of the
    first row of its output, and the row stores them. *)
Theorem probabilities_follow_capability
    (argsort : bool → list Q → list nat) (exp : Q → Q)
    (joblib_load : string → result Model) (now : Z) (w : widgets)
    (db db' : gmap string sql.table) (pg : page) (v : prediction_view)
    (model : Model) :
  load_model joblib_load (selectbox w) = Ok model →
  app argsort exp joblib_load now w db = (db', Ok pg) →
  predicted pg = Some v →
  ∃ row,
    last_prediction db' = Some row ∧
    (predict_proba model = None →
       probabilities v = (None, None) ∧
       field "prediction_proba_benign" row = Some sql.NULL ∧
       field "prediction_proba_malignant" row = Some sql.NULL) ∧
    (∀ f, predict_proba model = Some f →
       ∃ rows r b m,
         f (input_data w) = Ok rows ∧ rows !! 0%nat = Some r ∧
         r !! 0%nat = Some b ∧ r !! 1%nat = Some m ∧
         probabilities v = (Some b, Some m) ∧
         field "prediction_proba_benign" row = Some (sql.Float b) ∧
         field "prediction_proba_malignant" row = Some (sql.Float m)).
Proof.
  intros Hload Happ Hv.
  destruct (app_predicted_inv _ _ _ _ _ _ _ _ _ Happ Hv)
    as (model' & c' & Hload' & Hon & ->).
  rewrite Hload in Hload'. injection Hload' as <-.
  apply on_predict_inv in Hon
    as (prediction & p & pp & e & c1 & _ & _ & Hpp & Hcp & _ & Hins & _ & ->).
  apply insert_prediction_row in Hins
    as (t & row & _ & _ & Hlast & _ & _ & Hb & Hm).
  apply class_probabilities_cases in Hcp.
  exists row. split; [exact Hlast |]. split.
  - intros Hnone. rewrite Hnone in Hpp. subst pp.
    destruct Hcp as [[_ Hp] | (rows & ? & ? & ? & ? & _)]; [| discriminate].
    rewrite Hp in Hb, Hm. by rewrite Hp.
  - intros f Hf. rewrite Hf in Hpp. destruct Hpp as [Hout [rows' ->]].
    destruct Hcp as [[? _] | (rows & r & b & m & [= <-] & Hr & Hb0 & Hm0 & Hp)];
      [discriminate |].
    rewrite Hp in Hb, Hm. exists rows', r, b, m. by rewrite Hp.
Qed.

(** C9: in every completed request the first entry of the model's
    prediction decides the label: 1 gives "Malignant", every other value
    (0 included) gives "Benign"; the label is one of these two texts and is
    what the stored row holds. *)
Theorem label_of_completed_request
    (argsort : bool → list Q → list nat) (exp : Q → Q)
    (joblib_load : string → result Model) (now : Z) (w : widgets)
    (db db' : gmap string sql.table) (pg : page) (v : prediction_view)
    (model : Model) :
  load_model joblib_load (selectbox w) = Ok model →
  app argsort exp joblib_load now w db = (db', Ok pg) →
  predicted pg = Some v →
  ∃ prediction p row,
    predict model (input_data w) = Ok prediction ∧
    prediction !! 0%nat = Some p ∧
    (p = 1%Z → label v = "Malignant") ∧
    (p ≠ 1%Z → label v = "Benign") ∧
    (label v = "Malignant" ∨ label v = "Benign") ∧
    last_prediction db' = Some row ∧
    field "prediction" row = Some (sql.Text (label v)).
Proof.
  intros Hload Happ Hv.
  destruct (app_predicted_inv _ _ _ _ _ _ _ _ _ Happ Hv)
    as (model' & c' & Hload' & Hon & ->).
  rewrite Hload in Hload'. injection Hload' as <-.
  apply on_predict_inv in Hon
    as (prediction & p & pp & e & c1 & Hpred & Hp & _ & _ & _ & Hins & Hlabel & ->).
  apply insert_prediction_row in Hins
    as (t & row & _ & _ & Hlast & _ & Hfield & _ & _).
  exists prediction, p, row. rewrite Hlabel.
  destruct (prediction_result_cases p) as (H1 & H0 & Hboth).
  by repeat split.
Qed.

Lemma probabilities_follow_capability_witness :
  (∃ row,
      last_prediction
        (app (argsort_with true) (λ _, 1%Q) sample_load 1000
           (sample_widgets "XGBoost") ∅).1 = Some row ∧
      field "prediction_proba_benign" row = Some sql.NULL ∧
      field "prediction_proba_malignant" row = Some sql.NULL) ∧
  (∃ row,
      last_prediction
        (app (argsort_with true) (λ _, 1%Q) sample_load 1000
           (sample_widgets "Logistic Regression") ∅).1 = Some row ∧
      field "prediction_proba_benign" row = Some (sql.Float (1 # 10)) ∧
      field "prediction_proba_malignant" row = Some (sql.Float (9 # 10))).
Proof.
  split.
  - set (run := app _ _ _ _ _ _).
    assert (Hrun : ∃ pg v, run.2 = Ok pg ∧ predicted pg = Some v).
    { vm_compute. eexists _, _. split; reflexivity. }
    destruct Hrun as (pg & v & Happ%run_completed & Hv).
    destruct (probabilities_follow_capability (argsort_with true) (λ _, 1%Q)
                sample_load 1000 (sample_widgets "XGBoost") ∅ _ pg v sample_tree
                eq_refl Happ Hv) as (row & Hlast & Hnone & _).
    exists row. split; [exact Hlast |]. apply Hnone. reflexivity.
  - set (run := app _ _ _ _ _ _).
    assert (Hrun : ∃ pg v, run.2 = Ok pg ∧ predicted pg = Some v).
    { vm_compute. eexists _, _. split; reflexivity. }
    destruct Hrun as (pg & v & Happ%run_completed & Hv).
    destruct (probabilities_follow_capability (argsort_with true) (λ _, 1%Q)
                sample_load 1000 (sample_widgets "Logistic Regression") ∅ _ pg v sample_lr
                eq_refl Happ Hv) as (row & Hlast & _ & Hsome).
    destruct (Hsome _ eq_refl) as (rows & r & b & m & Hf & Hr & Hb & Hm & _ & Hfb & Hfm).
    injection Hf as <-. injection Hr as <-.
    injection Hb as <-. injection Hm as <-.
    exists row. by repeat split.
Defined.

Lemma label_of_completed_request_witness :
  (∃ pg v row,
      app (argsort_with true) (λ _, 1%Q) sample_load 1000
        (sample_widgets "Logistic Regression") ∅
      = ((app (argsort_with true) (λ _, 1%Q) sample_load 1000
            (sample_widgets "Logistic Regression") ∅).1, Ok pg) ∧
      predicted pg = Some v ∧ label v = "Malignant" ∧
      field "prediction" row = Some (sql.Text "Malignant")) ∧
  (∃ pg v row,
      app (argsort_with true) (λ _, 1%Q) sample_load 1000
        (sample_widgets "Catboost") ∅
      = ((app (argsort_with true) (λ _, 1%Q) sample_load 1000
            (sample_widgets "Catboost") ∅).1, Ok pg) ∧
      predicted pg = Some v ∧ label v = "Benign" ∧
      field "prediction" row = Some (sql.Text "Benign")).
Proof.
  split.
  - set (run := app _ _ _ _ _ _).
    assert (Hrun : ∃ pg v, run.2 = Ok pg ∧ predicted pg = Some v).
    { vm_compute. eexists _, _. split; reflexivity. }
    destruct Hrun as (pg & v & Happ%run_completed & Hv).
    destruct (label_of_completed_request (argsort_with true) (λ _, 1%Q)
                sample_load 1000 (sample_widgets "Logistic Regression") ∅ _ pg v sample_lr
                eq_refl Happ Hv)
      as (prediction & p & row & Hpred & Hp & H1 & _ & _ & _ & Hfield).
    injection Hpred as <-. injection Hp as <-.
    exists pg, v, row. rewrite Hfield, (H1 eq_refl). by repeat split.
  - set (run := app _ _ _ _ _ _).
    assert (Hrun : ∃ pg v, run.2 = Ok pg ∧ predicted pg = Some v).
    { vm_compute. eexists _, _. split; reflexivity. }
    destruct Hrun as (pg & v & Happ%run_completed & Hv).
    destruct (label_of_completed_request (argsort_with true) (λ _, 1%Q)
                sample_load 1000 (sample_widgets "Catboost") ∅ _ pg v sample_tree
                eq_refl Happ Hv)
      as (prediction & p & row & Hpred & Hp & _ & H0 & _ & _ & Hfield).
    injection Hpred as <-. injection Hp as <-.
    exists pg, v, row. rewrite Hfield, H0 by discriminate. by repeat split.
Defined.

(** *** The invariant of the table *)

Lemma audit_ok_ensure_schema (db : gmap string sql.table) :
  audit_ok db → audit_ok (sql.committed (ensure_schema (sql.connect db))).
Proof.
  intros Hok. unfold ensure_schema, sql.create_table_if_not_exists.
  cbn [sql.connect sql.working sql.committed].
  destruct (db !! "predictions") as [t|] eqn:Hlook;
    cbn [sql.commit sql.working sql.committed]; [exact Hok |].
  intros t row. rewrite lookup_insert_eq. intros [= <-].
  cbn [sql.tbl_rows]. by intros ?%elem_of_nil.
Qed.

Lemma both_or_neither_stored (row : list (string * sql.value))
    (proba : option Q * option Q) (prediction_proba : option (list (list Q))) :
  class_probabilities prediction_proba = Ok proba →
  field "prediction_proba_benign" row = Some (opt_float proba.1) →
  field "prediction_proba_malignant" row = Some (opt_float proba.2) →
  both_or_neither row.
Proof.
  intros Hcp Hb Hm. exists (opt_float proba.1), (opt_float proba.2).
  split; [exact Hb |]. split; [exact Hm |].
  apply class_probabilities_cases in Hcp
    as [[_ ->] | (? & ? & b & m & _ & _ & _ & _ & ->)]; cbn; split; congruence.
Qed.

Lemma audit_ok_on_predict (argsort : bool → list Q → list nat) (exp : Q → Q)
    (now : Z) (name : string) (model : Model) (input : list (string * Q))
    (c c' : sql.connection) (v : prediction_view) :
  audit_ok (sql.working c) →
  on_predict argsort exp now name model input c = Ok (v, c') →
  audit_ok (sql.committed c').
Proof.
  intros Hok Hon.
  apply on_predict_inv in Hon
    as (prediction & p & pp & e & c1 & _ & _ & _ & Hcp & _ & Hins & _ & ->).
  apply insert_prediction_row in Hins
    as (t & row & Ht & Hw & _ & _ & _ & Hb & Hm).
  cbn [sql.commit sql.committed]. rewrite Hw.
  intros t' row'. rewrite lookup_insert_eq. intros [= <-].
  cbn [sql.tbl_rows]. rewrite elem_of_app, list_elem_of_singleton.
  intros [Hin | ->].
  - by apply (Hok t).
  - by eapply both_or_neither_stored.
Qed.

(** C10: the row a completed request stores has its two probability fields
    both null or both non-null; and whatever a run of the script does
    (complete, stop at an exception, or not predict at all), a table whose
    rows all have this property keeps it. *)
Theorem probability_fields_both_or_neither
    (argsort : bool → list Q → list nat) (exp : Q → Q)
    (joblib_load : string → result Model) (now : Z) (w : widgets)
    (db : gmap string sql.table) :
  (∀ db' pg v,
      app argsort exp joblib_load now w db = (db', Ok pg) →
      predicted pg = Some v →
      ∃ row, last_prediction db' = Some row ∧ both_or_neither row) ∧
  (audit_ok db → audit_ok (app argsort exp joblib_load now w db).1).
Proof.
  split.
  - intros db' pg v Happ Hv.
    destruct (app_predicted_inv _ _ _ _ _ _ _ _ _ Happ Hv)
      as (model & c' & _ & Hon & ->).
    apply on_predict_inv in Hon
      as (prediction & p & pp & e & c1 & _ & _ & _ & Hcp & _ & Hins & _ & ->).
    apply insert_prediction_row in Hins
      as (t & row & _ & _ & Hlast & _ & _ & Hb & Hm).
    exists row. split; [exact Hlast |]. by eapply both_or_neither_stored.
  - intros Hok. unfold app.
    destruct (load_model joblib_load (selectbox w)) as [model|]; [| exact Hok].
    pose proof (audit_ok_ensure_schema db Hok) as Hok'.
    destruct (global_importance_view argsort (selectbox w) model);
      [| exact Hok'].
    destruct (button w); [| exact Hok'].
    destruct (on_predict _ _ _ _ _ _ _) as [[v c']|] eqn:Hon; [| exact Hok'].
    cbn [fst]. eapply audit_ok_on_predict; [| exact Hon].
    destruct (ensure_schema_present (sql.connect db)) as [_ <-]. exact Hok'.
Qed.

Lemma probability_fields_both_or_neither_witness :
  (∃ row,
      last_prediction
        (app (argsort_with true) (λ _, 1%Q) sample_load 1000
           (sample_widgets "Logistic Regression") ∅).1 = Some row ∧
      both_or_neither row) ∧
  audit_ok
    (app (argsort_with true) (λ _, 1%Q) sample_load 1000
       (sample_widgets "Gradient Boosting")
       (app (argsort_with true) (λ _, 1%Q) sample_load 1000
          (sample_widgets "Logistic Regression") ∅).1).1.
Proof.
  assert (Hempty : audit_ok ∅).
  { intros t row Ht. by rewrite lookup_empty in Ht. }
  split.
  - set (run := app _ _ _ _ _ _).
    assert (Hrun : ∃ pg v, run.2 = Ok pg ∧ predicted pg = Some v).
    { vm_compute. eexists _, _. split; reflexivity. }
    destruct Hrun as (pg & v & Happ%run_completed & Hv).
    exact (proj1 (probability_fields_both_or_neither _ _ _ _ _ _) _ _ _ Happ Hv).
  - apply probability_fields_both_or_neither.
    apply probability_fields_both_or_neither. exact Hempty.
Defined.

(** ** Sequences whose length disagrees with the schema *)

Lemma global_importance_df_mismatch (name : string) (model : Model)
    (importance : list Q) :
  global_importance name model = Ok importance →
  length importance ≠ length features →
  global_importance_df name model
  = Raise (ValueError "All arrays must be of the same length").
Proof.
  intros Hgi Hlen. unfold global_importance_df. rewrite Hgi.
  cbn [mbind result_bind]. apply DataFrame_mismatch.
  apply Exists_cons_hd. cbn [pd.col_length snd]. exact Hlen.
Qed.

Lemma lr_feature_contributions_mismatch (coefs : list Q) (w : widgets) :
  length coefs ≠ length features →
  lr_feature_contributions coefs (row_values (input_data w))
  = Raise (ValueError "operands could not be broadcast together") ∨
  lr_feature_contributions coefs (row_values (input_data w))
  = Raise (ValueError "All arrays must be of the same length").
Proof.
  intros Hlen. pose proof (length_input_data w) as Hv.
  unfold lr_feature_contributions, np.multiply.
  destruct (Nat.eqb_spec (length coefs) (length (row_values (input_data w))))
    as [Heq | _]; [congruence |].
  destruct (row_values (input_data w)) as [| y [| y' values]];
    [discriminate Hv | discriminate Hv |].
  destruct coefs as [| x [| x' coefs]]; [by left | | by left].
  right. cbn [mbind result_bind]. apply DataFrame_mismatch.
  apply Exists_cons_hd. cbn [pd.col_length snd length]. rewrite <- Hv.
  cbn [length]. lia.
Qed.

Lemma tree_feature_contributions_mismatch (model : Model)
    (importances values : list Q) :
  feature_importances_ model = Some importances →
  length importances ≠ length features →
  tree_feature_contributions model values
  = Raise (ValueError "All arrays must be of the same length").
Proof.
  intros Hfi Hlen. unfold tree_feature_contributions. rewrite Hfi.
  cbn [getattr mbind result_bind]. rewrite DataFrame_mismatch; [reflexivity |].
  apply Exists_cons_hd. cbn [pd.col_length snd]. exact Hlen.
Qed.

(** C4 (as the code has it): a handle whose coefficient or importance
    sequence has another length than the 19-feature schema makes the
    explanation fail with the library's error for mismatched lengths, a
    [ValueError] raised inside numpy or pandas (the script checks no length
    and defines no exception of its own): in the global
    importance frame, which stops the script before any row is stored, in
    the Logistic Regression explanation and in the tree-based one. *)
Theorem length_mismatch_raises
    (argsort : bool → list Q → list nat) (exp : Q → Q)
    (joblib_load : string → result Model) (now : Z)
    (model : Model) (w : widgets) :
  (∀ importance,
      global_importance (selectbox w) model = Ok importance →
      length importance ≠ length features →
      global_importance_df (selectbox w) model
      = Raise (ValueError "All arrays must be of the same length") ∧
      (load_model joblib_load (selectbox w) = Ok model →
       ∀ db, app argsort exp joblib_load now w db
             = (sql.committed (ensure_schema (sql.connect db)),
                Raise (ValueError "All arrays must be of the same length")))) ∧
  (∀ coefs rest intercept rest',
      coef_ model = Some (coefs :: rest) →
      intercept_ model = Some (intercept :: rest') →
      length coefs ≠ length features →
      explain argsort exp "Logistic Regression" model (input_data w)
      = Raise (ValueError "shapes not aligned") ∧
      ∃ msg, lr_feature_contributions coefs (row_values (input_data w))
             = Raise (ValueError msg)) ∧
  (∀ name importances,
      name ∈ tree_based_models →
      feature_importances_ model = Some importances →
      length importances ≠ length features →
      explain argsort exp name model (input_data w)
      = Raise (ValueError "All arrays must be of the same length")).
Proof.
  split; [| split].
  - intros importance Hgi Hlen.
    pose proof (global_importance_df_mismatch _ _ _ Hgi Hlen) as Hdf.
    split; [exact Hdf |]. intros Hload db.
    unfold app, global_importance_view. rewrite Hload, Hdf. reflexivity.
  - intros coefs rest intercept rest' Hcoef Hint Hlen. split.
    + unfold explain, explain_lr. cbn [String.eqb Ascii.eqb Bool.eqb].
      rewrite Hcoef, Hint.
      cbn [getattr getitem lookup list_lookup mbind result_bind].
      unfold np.dot. rewrite length_input_data.
      destruct (Nat.eqb_spec (length features) (length coefs)) as [Heq | _];
        [by symmetry in Heq | reflexivity].
    + destruct (lr_feature_contributions_mismatch coefs w Hlen) as [-> | ->];
        eauto.
  - intros name importances Hname Hfi Hlen.
    unfold explain, explain_tree. rewrite (tree_based_not_lr _ Hname).
    by rewrite (tree_feature_contributions_mismatch _ _ _ Hfi Hlen).
Qed.

Lemma length_mismatch_raises_witness :
  global_importance_df "Logistic Regression" sample_lr_18
  = Raise (ValueError "All arrays must be of the same length") ∧
  app (argsort_with true) (λ _, 1%Q) (λ _, Ok sample_lr_18) 1000
    (sample_widgets "Logistic Regression") ∅
  = (sql.committed (ensure_schema (sql.connect ∅)),
     Raise (ValueError "All arrays must be of the same length")) ∧
  explain (argsort_with true) (λ _, 1%Q) "Logistic Regression" sample_lr_18
    (input_data (sample_widgets "Logistic Regression"))
  = Raise (ValueError "shapes not aligned").
Proof.
  destruct (length_mismatch_raises (argsort_with true) (λ _, 1%Q)
              (λ _, Ok sample_lr_18) 1000 sample_lr_18
              (sample_widgets "Logistic Regression")) as (Hglobal & Hlr & _).
  destruct (Hglobal _ eq_refl) as [Hdf Happ].
  { cbn. lia. }
  split; [exact Hdf |]. split; [exact (Happ eq_refl ∅) |].
  eapply Hlr; [reflexivity | reflexivity |]. cbn. lia.
Defined.

(** ** Sorting *)

Lemma assoc_map {A B} (f : A → B) (k : string) (l : list (string * A)) :
  pd.assoc k (map (λ kc, (kc.1, f kc.2)) l) = f <$> pd.assoc k l.
Proof.
  induction l as [| [k' a] l IH]; cbn [map pd.assoc fst snd]; [done |].
  by destruct (String.eqb k k').
Qed.

Lemma getcol_sorted (indexer : list nat) (df : pd.frame) (name : string)
    (idx : list nat) :
  pd.getcol
    {| pd.index := idx;
       pd.columns := map (λ kc, (kc.1, pd.take_col indexer kc.2)) (pd.columns df) |}
    name
  = pd.take_col indexer <$> pd.getcol df name.
Proof.
  unfold pd.getcol. cbn [pd.columns]. rewrite assoc_map.
  by destruct (pd.assoc name (pd.columns df)).
Qed.

Lemma sort_values_presents (argsort : bool → list Q → list nat)
    (df sorted : pd.frame) (by_ : string) (ascending : bool) :
  argsort_contract argsort →
  pd.sort_values argsort df by_ ascending = Ok sorted →
  presents ascending by_ df sorted.
Proof.
  intros Hcontract H. unfold pd.sort_values in H.
  ok_bind H c Hcol. ok_bind H keys Hkeys.
  destruct c as [| keys']; [discriminate |]. injection Hkeys as ->.
  injection H as <-.
  destruct (Hcontract ascending keys) as [Hperm Hsorted].
  exists (argsort ascending keys), keys.
  split; [exact Hperm |]. split; [exact Hcol |]. split; [reflexivity |].
  split; [intros name; apply getcol_sorted |].
  split; [| exact Hsorted].
  by rewrite getcol_sorted, Hcol.
Qed.

(** *** The two merge sorts keep the library's promise *)

Lemma before_total (ascending stable : bool) :
  Total (λ a b : nat * Q, Is_true (before ascending stable a b)).
Proof.
  intros [i x] [j y]. unfold before. cbn [fst snd].
  rewrite <- (Qcompare_antisym x y).
  destruct (x ?= y)%Q, ascending, stable; cbn [CompOpp negb];
    try (by left); try (by right);
    destruct (Nat.leb_spec i j), (Nat.leb_spec j i); (by left) || (by right) || lia.
Qed.

Lemma before_key_order (ascending stable : bool) (a b : nat * Q) :
  before ascending stable a b → key_order ascending a.2 b.2.
Proof.
  unfold before, key_order, flip.
  destruct (a.2 ?= b.2)%Q eqn:Hcmp.
  - apply Qeq_alt in Hcmp. intros _.
    destruct ascending; rewrite Hcmp; apply Qle_refl.
  - apply Qlt_alt in Hcmp. destruct ascending; [| done].
    intros _. by apply Qlt_le_weak.
  - apply Qgt_alt in Hcmp. destruct ascending; [done |].
    intros _. by apply Qlt_le_weak.
Qed.

Lemma take_pairs (keys : list Q) (l : list (nat * Q)) :
  Forall (λ p, keys !! p.1 = Some p.2) l → pd.take l.*1 keys = l.*2.
Proof.
  unfold pd.take. induction 1 as [| p l Hp _ IH]; [done |].
  cbn [fmap list_fmap omap list_omap]. by rewrite Hp, IH.
Qed.

Lemma imap_pair_lookup (keys : list Q) :
  Forall (λ p : nat * Q, keys !! p.1 = Some p.2) (imap pair keys).
Proof.
  apply Forall_lookup. intros i p. rewrite list_lookup_imap.
  destruct (keys !! i) as [x|] eqn:Hx; [| discriminate].
  by intros [= <-].
Qed.

Lemma imap_pair_positions (keys : list Q) :
  (imap pair keys).*1 = seq 0 (length keys).
Proof.
  rewrite fmap_imap.
  rewrite (imap_ext _ (λ j _, j)) by done.
  by rewrite (imap_seq_0 keys (λ j, j)), list_fmap_id.
Qed.

Lemma argsort_with_contract (stable : bool) :
  argsort_contract (argsort_with stable).
Proof.
  intros ascending keys. unfold argsort_with.
  set (R := λ a b : nat * Q, Is_true (before ascending stable a b)).
  pose proof (merge_sort_Permutation R (imap pair keys)) as Hperm.
  split.
  - by rewrite Hperm, imap_pair_positions.
  - rewrite take_pairs.
    + apply (Sorted_fmap snd R); [apply before_key_order |].
      apply (@Sorted_merge_sort _ R _ (before_total ascending stable)).
    + rewrite Hperm. apply imap_pair_lookup.
Qed.

(** *** The presented frames *)

Lemma explain_sorted (argsort : bool → list Q → list nat) (exp : Q → Q)
    (name : string) (model : Model) (input : list (string * Q))
    (e : explanation) :
  explain argsort exp name model input = Ok e →
  pd.sort_values argsort (feature_contributions e) "Contribution" false
  = Ok (feature_contributions_sorted e).
Proof.
  unfold explain. destruct (String.eqb name "Logistic Regression").
  - unfold explain_lr. intros H.
    ok_bind H coef Hcoef. ok_bind H coefs Hcoefs.
    ok_bind H icpt Hicpt. ok_bind H intercept Hintercept.
    ok_bind H d Hd. ok_bind H contributions Hfc. ok_bind H sorted Hsorted.
    injection H as <-. exact Hsorted.
  - unfold explain_tree. intros H.
    ok_bind H contributions Hfc. ok_bind H sorted Hsorted.
    injection H as <-. exact Hsorted.
Qed.

Lemma key_order_transitive (ascending : bool) : Transitive (key_order ascending).
Proof.
  destruct ascending; intros x y z; unfold key_order, flip.
  - apply Qle_trans.
  - intros Hyx Hzy. by apply (Qle_trans z y x).
Qed.

Lemma sorted_pairwise (ascending : bool) (scores : list Q) :
  Sorted (key_order ascending) scores →
  ∀ i j x y, (i < j)%nat → scores !! i = Some x → scores !! j = Some y →
             key_order ascending x y.
Proof.
  intros Hsorted.
  apply (@Sorted_StronglySorted _ _ (key_order_transitive ascending)) in Hsorted.
  induction Hsorted as [| z l _ IH Hall]; intros i j x y Hij Hi Hj.
  - by rewrite lookup_nil in Hi.
  - destruct j as [| j]; [lia |]. cbn [lookup list_lookup] in Hj.
    destruct i as [| i].
    + injection Hi as <-. rewrite Forall_forall in Hall.
      apply Hall. by eapply list_elem_of_lookup_2.
    + cbn [lookup list_lookup] in Hi. apply (IH i j); [lia | done | done].
Qed.

(** C3 (as the code has it): whatever routine the library sorts with, as
    long as it returns a permutation of the row positions that puts the keys
    in order, the global importance is presented in ascending order of
    Importance and the local contributions in descending order of
    Contribution, each as a reordering of the rows of the unsorted frame
    (every column moved by the same indexer). The order of rows with equal
    scores is the routine's choice. *)
Theorem presentation_is_sorted (argsort : bool → list Q → list nat) :
  argsort_contract argsort →
  (∀ name model gi,
      global_importance_view argsort name model = Ok gi →
      ∃ df scores,
        global_importance_df name model = Ok df ∧
        presents true "Importance" df gi ∧
        pd.getcol gi "Importance" = Ok (pd.NumCol scores) ∧
        ∀ i j x y, (i < j)%nat → scores !! i = Some x → scores !! j = Some y →
                   (x <= y)%Q) ∧
  (∀ exp name model input e,
      explain argsort exp name model input = Ok e →
      ∃ scores,
        presents false "Contribution"
          (feature_contributions e) (feature_contributions_sorted e) ∧
        pd.getcol (feature_contributions_sorted e) "Contribution"
        = Ok (pd.NumCol scores) ∧
        ∀ i j x y, (i < j)%nat → scores !! i = Some x → scores !! j = Some y →
                   (y <= x)%Q).
Proof.
  intros Hcontract. split.
  - intros name model gi H. unfold global_importance_view in H.
    ok_bind H df Hdf.
    pose proof (sort_values_presents _ _ _ _ _ Hcontract H) as Hp.
    pose proof Hp as (indexer & keys & _ & _ & _ & _ & Hby & Hsorted).
    exists df, (pd.take indexer keys).
    split; [exact Hdf |]. split; [exact Hp |]. split; [exact Hby |].
    exact (sorted_pairwise true _ Hsorted).
  - intros exp name model input e He.
    pose proof (sort_values_presents _ _ _ _ _ Hcontract
                  (explain_sorted _ _ _ _ _ _ He)) as Hp.
    pose proof Hp as (indexer & keys & _ & _ & _ & _ & Hby & Hsorted).
    exists (pd.take indexer keys).
    split; [exact Hp |]. split; [exact Hby |].
    exact (sorted_pairwise false _ Hsorted).
Qed.

Lemma presentation_is_sorted_witness :
  (∃ gi df scores,
      global_importance_view (argsort_with true) "Gradient Boosting"
        sample_tree = Ok gi ∧
      global_importance_df "Gradient Boosting" sample_tree = Ok df ∧
      presents true "Importance" df gi ∧
      pd.getcol gi "Importance" = Ok (pd.NumCol scores)) ∧
  (∃ e scores,
      explain (argsort_with true) (λ _, 1%Q) "Logistic Regression" sample_lr
        (input_data (sample_widgets "Logistic Regression")) = Ok e ∧
      presents false "Contribution"
        (feature_contributions e) (feature_contributions_sorted e) ∧
      pd.getcol (feature_contributions_sorted e) "Contribution"
      = Ok (pd.NumCol scores)).
Proof.
  destruct (presentation_is_sorted (argsort_with true)
              (argsort_with_contract true)) as [Hglobal Hlocal].
  split.
  - eassert (Hview : global_importance_view (argsort_with true)
                       "Gradient Boosting" sample_tree = Ok _)
      by (vm_compute; reflexivity).
    destruct (Hglobal _ _ _ Hview) as (df & scores & Hdf & Hp & Hs & _).
    eexists _, df, scores. split; [exact Hview |]. by repeat split.
  - eassert (He : explain (argsort_with true) (λ _, 1%Q) "Logistic Regression"
                    sample_lr (input_data (sample_widgets "Logistic Regression"))
                  = Ok _)
      by (vm_compute; reflexivity).
    destruct (Hlocal _ _ _ _ _ He) as (scores & Hp & Hs & _).
    eexists _, scores. split; [exact He |]. by split.
Defined.

(** C3 (as stated) fails: a routine that keeps the library's promise may put
    rows with equal scores against the schema order. With the merge sort
    that reverses ties, the tree-based sample presents "texture_worst"
    (schema position 18) before "texture_mean" (position 17), both of
    importance 0; and the Logistic Regression sample presents the same two
    rows in that order, both of contribution 0. *)
Lemma ties_not_in_schema_order :
  ¬ (∀ argsort, argsort_contract argsort →
       ∀ name model gi scores,
         global_importance_view argsort name model = Ok gi →
         pd.getcol gi "Importance" = Ok (pd.NumCol scores) →
         ties_in_schema_order (pd.index gi) scores) ∧
  ¬ (∀ argsort, argsort_contract argsort →
       ∀ exp name model input e scores,
         explain argsort exp name model input = Ok e →
         pd.getcol (feature_contributions_sorted e) "Contribution"
         = Ok (pd.NumCol scores) →
         ties_in_schema_order (pd.index (feature_contributions_sorted e)) scores).
Proof.
  split.
  - intros H.
    specialize (H (argsort_with false) (argsort_with_contract false)
                  "Gradient Boosting" sample_tree).
    eassert (Hview : global_importance_view (argsort_with false)
                       "Gradient Boosting" sample_tree = Ok _)
      by (vm_compute; reflexivity).
    specialize (H _ _ Hview eq_refl 0 1 18 17 0%Q 0%Q)%nat.
    cbn in H. specialize (H ltac:(lia) eq_refl eq_refl eq_refl eq_refl
                            ltac:(reflexivity)).
    lia.
  - intros H.
    specialize (H (argsort_with false) (argsort_with_contract false)
                  (λ _, 1%Q) "Logistic Regression" sample_lr
                  (input_data (sample_widgets "Logistic Regression"))).
    eassert (He : explain (argsort_with false) (λ _, 1%Q) "Logistic Regression"
                    sample_lr (input_data (sample_widgets "Logistic Regression"))
                  = Ok _)
      by (vm_compute; reflexivity).
    specialize (H _ _ He eq_refl 1 2 18 17 0%Q 0%Q)%nat.
    cbn in H. specialize (H ltac:(lia) eq_refl eq_refl eq_refl eq_refl
                            ltac:(reflexivity)).
    lia.
Qed.

(** ** Runs that complete

    A well-formed handle, a model that answers, and a [predictions] table
    that is absent or has the columns the script declares: the run stores
    its row and shows the prediction. *)








(** * Further properties of the script *)

(** ** Model selection (lines 11-19, 28) *)

Lemma assoc_None {A} (k : string) (l : list (string * A)) :
  pd.assoc k l = None ↔ k ∉ map fst l.
Proof.
  induction l as [| [k' a] l IH]; cbn [pd.assoc map fst].
  - split; [intros _; apply not_elem_of_nil | done].
  - rewrite not_elem_of_cons.
    destruct (String.eqb_spec k k') as [-> | Hne]; [split; [done | tauto] |].
    rewrite IH. tauto.
Qed.

Lemma assoc_Some_path {A} (k : string) (l : list (string * A)) :
  k ∈ map fst l → ∃ a, pd.assoc k l = Some a ∧ (k, a) ∈ l.
Proof.
  intros Hin. destruct (pd.assoc k l) as [a|] eqn:Hlook.
  - exists a. split; [done |]. by apply assoc_Some_elem.
  - by apply assoc_None in Hlook.
Qed.

(** X1: a selected name that is one of the five configured names is loaded
    from its configured path; any other name raises [KeyError] before the
    database is touched, so the run leaves the database exactly as it was
    (no table created, no row stored). *)
Theorem model_name_resolution
    (argsort : bool → list Q → list nat) (exp : Q → Q)
    (joblib_load : string → result Model) (now : Z) :
  (∀ name, name ∈ model_names →
     ∃ path, (name, path) ∈ model_paths ∧
             load_model joblib_load name = joblib_load path) ∧
  (∀ w db, selectbox w ∉ model_names →
     app argsort exp joblib_load now w db
     = (db, Raise (KeyError (selectbox w)))).
Proof.
  split.
  - intros name Hname. apply assoc_Some_path in Hname as (path & Hlook & Hin).
    exists path. split; [exact Hin |]. unfold load_model. by rewrite Hlook.
  - intros w db Hname. apply assoc_None in Hname.
    unfold app, load_model. by rewrite Hname.
Qed.

Lemma model_name_resolution_witness :
  load_model sample_load "LightGBM" = sample_load "models/lightgbm.pkl" ∧
  app (argsort_with true) (λ _, 1%Q) sample_load 1000 (sample_widgets "Unknown") ∅
  = (∅, Raise (KeyError "Unknown")).
Proof.
  destruct (model_name_resolution (argsort_with true) (λ _, 1%Q) sample_load 1000)
    as [Hknown Hunknown].
  split.
  - destruct (Hknown "LightGBM") as (path & Hin & Hload).
    { unfold model_names, model_paths. cbn [map fst]. rewrite !elem_of_cons. tauto. }
    reflexivity.
  - apply (Hunknown (sample_widgets "Unknown") ∅).
    unfold model_names, model_paths. cbn [map fst selectbox sample_widgets].
    rewrite !not_elem_of_cons. repeat split; try discriminate.
    apply not_elem_of_nil.
Defined.

Lemma model_names_cases (name : string) :
  name ∈ model_names ↔
  name = "Logistic Regression" ∨ name ∈ tree_based_models.
Proof.
  unfold model_names, model_paths, tree_based_models. cbn [map fst].
  rewrite !elem_of_cons, elem_of_nil. tauto.
Qed.

(** X2: the if/elif of the global importance covers every configured
    name: [global_importance] stops with [NameError] (the variable was never
    assigned) exactly for the names outside the configuration. *)
Theorem global_importance_name_error (name : string) (model : Model) :
  global_importance name model = Raise (NameError "global_importance")
  ↔ name ∉ model_names.
Proof.
  rewrite model_names_cases. unfold global_importance. split.
  - intros H [-> | Htree].
    + cbn [String.eqb Ascii.eqb Bool.eqb] in H.
      destruct (coef_ model) as [[| row rows]|]; discriminate.
    + rewrite (tree_based_not_lr _ Htree), bool_decide_eq_true_2 in H by done.
      destruct (feature_importances_ model); discriminate.
  - intros Hnot.
    destruct (String.eqb_spec name "Logistic Regression") as [-> | _];
      [tauto |].
    rewrite bool_decide_eq_false_2 by tauto. reflexivity.
Qed.

(** ** The input dictionary (lines 31-37, 97-104) *)

Lemma assoc_input (g : string → Q) (l : list string) (k : string) :
  pd.assoc k (map (λ feature, (feature, g feature)) l)
  = if bool_decide (k ∈ l) then Some (g k) else None.
Proof.
  induction l as [| f l IH]; cbn [map pd.assoc]; [done |].
  destruct (String.eqb_spec k f) as [-> | Hne].
  - rewrite bool_decide_eq_true_2; [done | apply elem_of_cons; by left].
  - rewrite IH. apply (f_equal (λ b : bool, if b then _ else _)).
    apply bool_decide_ext. rewrite elem_of_cons. tauto.
Qed.

Lemma NoDup_features : NoDup features.
Proof. apply (bool_decide_unpack _). vm_compute. exact I. Qed.

(** X3: the input dictionary has exactly one entry per feature of the
    schema, in schema order and without a repeated key; reading a feature
    back gives the value entered for it, and any other key is absent. *)
Theorem input_data_round_trip (w : widgets) :
  map fst (input_data w) = features ∧
  NoDup (map fst (input_data w)) ∧
  length (input_data w) = 19%nat ∧
  (∀ feature, feature ∈ features →
     pd.assoc feature (input_data w) = Some (number_input w feature)) ∧
  (∀ key, key ∉ features → pd.assoc key (input_data w) = None).
Proof.
  assert (Hkeys : map fst (input_data w) = features).
  { unfold input_data. rewrite map_map. cbn [fst]. apply map_id. }
  split; [exact Hkeys |]. split; [rewrite Hkeys; apply NoDup_features |].
  split; [unfold input_data; by rewrite length_map |].
  split.
  - intros feature Hin. unfold input_data.
    by rewrite assoc_input, bool_decide_eq_true_2.
  - intros key Hnot. unfold input_data.
    by rewrite assoc_input, bool_decide_eq_false_2.
Qed.

Lemma input_data_round_trip_witness :
  pd.assoc "radius_mean" (input_data (sample_widgets "XGBoost")) = Some (3 # 2)%Q ∧
  pd.assoc "radius" (input_data (sample_widgets "XGBoost")) = None.
Proof.
  destruct (input_data_round_trip (sample_widgets "XGBoost"))
    as (_ & _ & _ & Hin & Hout).
  split.
  - apply (Hin "radius_mean"). apply (bool_decide_unpack _). vm_compute. exact I.
  - apply (Hout "radius"). apply (bool_decide_unpack _). vm_compute. exact I.
Defined.

(** ** The frames behind the two charts (lines 76-81, 139-148, 158-167) *)

Lemma take_all {A} (l : list A) : pd.take (seq 0 (length l)) l = l.
Proof.
  unfold pd.take.
  enough (Hgen : ∀ pre : list A,
             omap (λ i, (pre ++ l) !! i) (seq (length pre) (length l)) = l)
    by exact (Hgen []).
  induction l as [| x l IH]; intros pre; [done |].
  cbn [length seq omap list_omap]. rewrite list_lookup_middle by done.
  f_equal. specialize (IH (pre ++ [x])).
  rewrite length_app, Nat.add_1_r, <- app_assoc in IH. exact IH.
Qed.

Lemma take_Permutation {A} (indexer : list nat) (l : list A) :
  indexer ≡ₚ seq 0 (length l) → pd.take indexer l ≡ₚ l.
Proof.
  intros Hperm. rewrite <- (take_all l) at 2. unfold pd.take. by rewrite Hperm.
Qed.

Lemma take_aligned {A} (indexer : list nat) (l : list A) (p i : nat) :
  pd.take indexer (seq 0 (length l)) !! p = Some i →
  pd.take indexer l !! p = l !! i ∧ (i < length l)%nat.
Proof.
  unfold pd.take. revert p.
  induction indexer as [| j indexer IH]; intros p; [done |].
  cbn [omap list_omap].
  destruct (decide (j < length l)%nat) as [Hlt | Hge].
  - rewrite lookup_seq_lt by done.
    destruct (lookup_lt_is_Some_2 l j Hlt) as [x Hx]. rewrite Hx.
    destruct p as [| p]; cbn [lookup list_lookup].
    + intros [= <-]. by rewrite Hx.
    + apply IH.
  - rewrite lookup_seq_ge by lia. rewrite (lookup_ge_None_2 l j) by lia.
    apply IH.
Qed.

Lemma sort_values_inv (argsort : bool → list Q → list nat)
    (df sorted : pd.frame) (by_ : string) (ascending : bool) :
  pd.sort_values argsort df by_ ascending = Ok sorted →
  ∃ keys,
    pd.getcol df by_ = Ok (pd.NumCol keys) ∧
    sorted = {| pd.index := pd.take (argsort ascending keys) (pd.index df);
                pd.columns :=
                  map (λ kc, (kc.1, pd.take_col (argsort ascending keys) kc.2))
                    (pd.columns df) |}.
Proof.
  unfold pd.sort_values. intros H. ok_bind H c Hcol. ok_bind H keys Hkeys.
  destruct c as [| keys']; [discriminate |]. injection Hkeys as ->.
  injection H as <-. eauto.
Qed.

Lemma global_importance_df_inv (name : string) (model : Model) (df : pd.frame) :
  global_importance_df name model = Ok df →
  ∃ importance,
    global_importance name model = Ok importance ∧
    length importance = length features ∧
    df = {| pd.index := seq 0 (length features);
            pd.columns := [ ("Feature", pd.StrCol features);
                            ("Importance", pd.NumCol importance) ] |}.
Proof.
  unfold global_importance_df. intros H. ok_bind H importance Hgi.
  exists importance. split; [exact Hgi |].
  unfold pd.DataFrame in H. cbn [forallb snd pd.col_length] in H.
  destruct (Nat.eqb_spec (length importance) (length features)) as [Hlen | _];
    [| discriminate].
  cbn [andb] in H. by injection H as <-.
Qed.

Lemma explain_lr_inv (argsort : bool → list Q → list nat) (exp : Q → Q)
    (model : Model) (input : list (string * Q)) (e : explanation) :
  explain_lr argsort exp model input = Ok e →
  ∃ coefs rest intercept rest',
    coef_ model = Some (coefs :: rest) ∧
    intercept_ model = Some (intercept :: rest') ∧
    length coefs = length features ∧
    length (row_values input) = length features ∧
    log_odds e = Some [(intercept + np.inner (row_values input) coefs)%Q] ∧
    probability e
    = Some [(1 / (1 + exp (- (intercept + np.inner (row_values input) coefs))))%Q] ∧
    feature_contributions e
    = {| pd.index := seq 0 (length features);
         pd.columns :=
           [ ("Feature", pd.StrCol features);
             ("Coefficient", pd.NumCol coefs);
             ("Value", pd.NumCol (row_values input));
             ("Contribution",
              pd.NumCol (zip_with Qmult coefs (row_values input))) ] |} ∧
    pd.sort_values argsort (feature_contributions e) "Contribution" false
    = Ok (feature_contributions_sorted e).
Proof.
  unfold explain_lr. intros H.
  ok_bind H coef Hcoef. ok_bind H coefs Hcoefs.
  ok_bind H icpt Hicpt. ok_bind H intercept Hintercept.
  ok_bind H d Hd. ok_bind H contributions Hfc. ok_bind H sorted Hsorted.
  injection H as <-.
  apply getattr_Ok in Hcoef, Hicpt. apply getitem_Ok in Hcoefs, Hintercept.
  destruct coef as [| coefs' rest]; [discriminate |].
  injection Hcoefs as ->.
  destruct icpt as [| intercept' rest']; [discriminate |].
  injection Hintercept as ->.
  unfold np.dot in Hd.
  destruct (Nat.eqb_spec (length (row_values input)) (length coefs))
    as [Hlen | _]; [| discriminate].
  injection Hd as <-.
  unfold lr_feature_contributions in Hfc.
  rewrite multiply_same_length in Hfc by done.
  cbn [mbind result_bind] in Hfc.
  unfold pd.DataFrame in Hfc. cbn [forallb snd pd.col_length] in Hfc.
  destruct (Nat.eqb_spec (length coefs) (length features)) as [Hc | _];
    [| discriminate].
  destruct (_ && _); [| discriminate]. injection Hfc as <-.
  exists coefs, rest, intercept, rest'.
  cbn [log_odds probability feature_contributions feature_contributions_sorted
       np.add_scalar map].
  repeat split; try done. congruence.
Qed.

Lemma tree_feature_contributions_inv (model : Model) (values : list Q)
    (df : pd.frame) :
  tree_feature_contributions model values = Ok df →
  ∃ importances,
    feature_importances_ model = Some importances ∧
    length importances = length features ∧
    length values = length features ∧
    df = {| pd.index := seq 0 (length features);
            pd.columns :=
              [ ("Feature", pd.StrCol features);
                ("Importance", pd.NumCol importances);
                ("Value", pd.NumCol values);
                ("Contribution",
                 pd.NumCol (zip_with Qmult importances values)) ] |}.
Proof.
  intros H. pose proof H as H0. unfold tree_feature_contributions in H0.
  ok_bind H0 importances Hfi. apply getattr_Ok in Hfi.
  ok_bind H0 fc Hfc.
  unfold pd.DataFrame in Hfc. cbn [forallb snd pd.col_length] in Hfc.
  destruct (Nat.eqb_spec (length importances) (length features)) as [Hi | _];
    [| discriminate].
  destruct (Nat.eqb_spec (length values) (length features)) as [Hv | _];
    [| discriminate].
  exists importances. split; [exact Hfi |]. split; [exact Hi |].
  split; [exact Hv |].
  rewrite (tree_feature_contributions_Ok model importances values Hfi Hi Hv) in H.
  by injection H as <-.
Qed.

(** The unsorted frame of an explanation, whichever branch built it: the
    weights are the coefficients (Logistic Regression) or the importances
    (any other name). *)
Lemma explain_frame (argsort : bool → list Q → list nat) (exp : Q → Q)
    (name : string) (model : Model) (input : list (string * Q))
    (e : explanation) :
  explain argsort exp name model input = Ok e →
  ∃ weights,
    (if String.eqb name "Logistic Regression"
     then ∃ rest, coef_ model = Some (weights :: rest)
     else feature_importances_ model = Some weights) ∧
    length weights = length features ∧
    length (row_values input) = length features ∧
    pd.index (feature_contributions e) = seq 0 (length features) ∧
    pd.getcol (feature_contributions e) "Feature" = Ok (pd.StrCol features) ∧
    pd.getcol (feature_contributions e) "Contribution"
    = Ok (pd.NumCol (zip_with Qmult weights (row_values input))) ∧
    pd.sort_values argsort (feature_contributions e) "Contribution" false
    = Ok (feature_contributions_sorted e).
Proof.
  intros He. pose proof (explain_sorted _ _ _ _ _ _ He) as Hsorted.
  unfold explain in He.
  destruct (String.eqb name "Logistic Regression").
  - apply explain_lr_inv in He
      as (coefs & rest & b & rest' & Hcoef & _ & Hc & Hv & _ & _ & Hfc & _).
    exists coefs. split; [by exists rest |].
    split; [exact Hc |]. split; [exact Hv |].
    split; [by rewrite Hfc |]. split; [by rewrite Hfc |].
    split; [by rewrite Hfc | exact Hsorted].
  - unfold explain_tree in He. ok_bind He fc Hfc. ok_bind He sorted Hs.
    injection He as <-. cbn [feature_contributions] in *.
    apply tree_feature_contributions_inv in Hfc as (imp & Hfi & Hi & Hv & Hfc).
    exists imp. split; [exact Hfi |].
    split; [exact Hi |]. split; [exact Hv |].
    split; [by rewrite Hfc |]. split; [by rewrite Hfc |].
    split; [by rewrite Hfc | exact Hsorted].
Qed.

Lemma sorted_column_aligned (argsort : bool → list Q → list nat)
    (df sorted : pd.frame) (by_ name : string) (ascending : bool)
    (c : pd.column) :
  pd.sort_values argsort df by_ ascending = Ok sorted →
  pd.index df = seq 0 (pd.col_length c) →
  pd.getcol df name = Ok c →
  ∃ indexer,
    pd.index sorted = pd.take indexer (seq 0 (pd.col_length c)) ∧
    pd.getcol sorted name = Ok (pd.take_col indexer c).
Proof.
  intros Hsort Hidx Hcol.
  apply sort_values_inv in Hsort as (keys & _ & ->).
  exists (argsort ascending keys). cbn [pd.index]. rewrite Hidx.
  split; [reflexivity |]. by rewrite getcol_sorted, Hcol.
Qed.

(** X4: sorting never separates a row: at every position of a presented
    frame, the row label [i] (a schema position), the feature name and the
    score are those of row [i] of the unsorted data, whatever indexer the
    sorting routine returned. So each bar of the two charts carries the
    name of the feature its score was computed for. *)
Theorem rows_move_together (argsort : bool → list Q → list nat) (exp : Q → Q)
    (name : string) (model : Model) :
  (∀ gi,
      global_importance_view argsort name model = Ok gi →
      ∃ importance names scores,
        global_importance name model = Ok importance ∧
        pd.getcol gi "Feature" = Ok (pd.StrCol names) ∧
        pd.getcol gi "Importance" = Ok (pd.NumCol scores) ∧
        ∀ p i, pd.index gi !! p = Some i →
               names !! p = features !! i ∧ scores !! p = importance !! i ∧
               (i < 19)%nat) ∧
  (∀ input e,
      explain argsort exp name model input = Ok e →
      ∃ contributions names scores,
        pd.getcol (feature_contributions e) "Contribution"
        = Ok (pd.NumCol contributions) ∧
        pd.getcol (feature_contributions_sorted e) "Feature"
        = Ok (pd.StrCol names) ∧
        pd.getcol (feature_contributions_sorted e) "Contribution"
        = Ok (pd.NumCol scores) ∧
        ∀ p i, pd.index (feature_contributions_sorted e) !! p = Some i →
               names !! p = features !! i ∧ scores !! p = contributions !! i ∧
               (i < 19)%nat).
Proof.
  split.
  - intros gi H. unfold global_importance_view in H. ok_bind H df Hdf.
    apply global_importance_df_inv in Hdf as (importance & Hgi & Hlen & ->).
    apply sort_values_inv in H as (keys & _ & ->).
    set (indexer := argsort true keys).
    exists importance, (pd.take indexer features), (pd.take indexer importance).
    split; [exact Hgi |]. split; [reflexivity |]. split; [reflexivity |].
    intros p i Hp. cbn [pd.index] in Hp.
    destruct (take_aligned indexer features p i Hp) as [Hf Hi].
    rewrite <- Hlen in Hp.
    destruct (take_aligned indexer importance p i Hp) as [Hs _].
    by repeat split.
  - intros input e He.
    apply explain_frame in He
      as (weights & _ & Hw & Hv & Hidx & Hfeat & Hcon & Hsorted).
    set (contributions := zip_with Qmult weights (row_values input)) in *.
    assert (Hlen : length contributions = length features).
    { unfold contributions. rewrite length_zip_with. lia. }
    destruct (sorted_column_aligned _ _ _ _ _ _ (pd.StrCol features)
                Hsorted Hidx Hfeat) as (indexer & Hi1 & Hnames).
    destruct (sorted_column_aligned _ _ _ _ "Contribution" _
                (pd.NumCol contributions) Hsorted) as (indexer' & Hi2 & Hscores);
      [cbn [pd.col_length]; by rewrite Hlen | exact Hcon |].
    exists contributions, (pd.take indexer features),
      (pd.take indexer' contributions).
    split; [exact Hcon |]. split; [exact Hnames |]. split; [exact Hscores |].
    intros p i Hp. cbn [pd.col_length] in Hi1, Hi2.
    pose proof Hp as Hp'. rewrite Hi1 in Hp. rewrite Hi2 in Hp'.
    destruct (take_aligned indexer features p i Hp) as [Hf Hi].
    destruct (take_aligned indexer' contributions p i Hp') as [Hs _].
    by repeat split.
Qed.

Lemma rows_move_together_witness :
  ∃ gi names,
    global_importance_view (argsort_with false) "Gradient Boosting" sample_tree
    = Ok gi ∧
    pd.getcol gi "Feature" = Ok (pd.StrCol names) ∧
    pd.index gi !! 0%nat = Some 18%nat ∧
    names !! 0%nat = Some "texture_worst".
Proof.
  destruct (rows_move_together (argsort_with false) (λ _, 1%Q)
              "Gradient Boosting" sample_tree) as [Hglobal _].
  eassert (Hview : global_importance_view (argsort_with false)
                     "Gradient Boosting" sample_tree = Ok _)
    by (vm_compute; reflexivity).
  destruct (Hglobal _ Hview) as (importance & names & scores & _ & Hn & _ & Hrows).
  eexists _, names. split; [exact Hview |]. split; [exact Hn |].
  split; [reflexivity |].
  destruct (Hrows 0%nat 18%nat eq_refl) as (Hname & _). exact Hname.
Defined.

Lemma sorted_frame_permutes (argsort : bool → list Q → list nat)
    (df sorted : pd.frame) (by_ : string) (ascending : bool)
    (names : list string) (keys : list Q) :
  argsort_contract argsort →
  pd.sort_values argsort df by_ ascending = Ok sorted →
  pd.index df = seq 0 (length features) →
  pd.getcol df "Feature" = Ok (pd.StrCol features) →
  pd.getcol df by_ = Ok (pd.NumCol keys) →
  length keys = length features →
  ∃ indexer,
    indexer ≡ₚ seq 0 (length features) ∧
    pd.index sorted = pd.take indexer (seq 0 (length features)) ∧
    pd.getcol sorted "Feature" = Ok (pd.StrCol (pd.take indexer features)) ∧
    pd.getcol sorted by_ = Ok (pd.NumCol (pd.take indexer keys)) ∧
    Sorted (key_order ascending) (pd.take indexer keys).
Proof.
  intros Hcontract Hsort Hidx Hfeat Hkeys Hlen.
  apply sort_values_inv in Hsort as (keys' & Hkeys' & ->).
  rewrite Hkeys in Hkeys'. injection Hkeys' as <-.
  destruct (Hcontract ascending keys) as [Hperm Hsorted].
  exists (argsort ascending keys). rewrite Hlen in Hperm.
  split; [exact Hperm |]. cbn [pd.index]. rewrite Hidx.
  split; [reflexivity |]. rewrite !getcol_sorted, Hfeat, Hkeys.
  by repeat split.
Qed.

(** X5: when the sorting routine keeps the library's promise, each chart
    shows the schema and nothing else: the presented Feature column is a
    permutation of the 19 feature names (each exactly once) and the row
    labels are a permutation of 0..18. *)
Theorem presented_features_are_the_schema
    (argsort : bool → list Q → list nat) :
  argsort_contract argsort →
  (∀ name model gi,
      global_importance_view argsort name model = Ok gi →
      ∃ names,
        pd.getcol gi "Feature" = Ok (pd.StrCol names) ∧
        names ≡ₚ features ∧ NoDup names ∧ length names = 19%nat ∧
        pd.index gi ≡ₚ seq 0 19) ∧
  (∀ exp name model input e,
      explain argsort exp name model input = Ok e →
      ∃ names,
        pd.getcol (feature_contributions_sorted e) "Feature"
        = Ok (pd.StrCol names) ∧
        names ≡ₚ features ∧ NoDup names ∧ length names = 19%nat ∧
        pd.index (feature_contributions_sorted e) ≡ₚ seq 0 19).
Proof.
  intros Hcontract.
  assert (Hfinish : ∀ indexer,
            indexer ≡ₚ seq 0 (length features) →
            pd.take indexer features ≡ₚ features ∧
            NoDup (pd.take indexer features) ∧
            length (pd.take indexer features) = 19%nat ∧
            pd.take indexer (seq 0 (length features)) ≡ₚ seq 0 19).
  { intros indexer Hperm.
    pose proof (take_Permutation indexer features Hperm) as Hnames.
    split; [exact Hnames |]. split; [rewrite Hnames; apply NoDup_features |].
    split; [by rewrite Hnames |].
    apply (take_Permutation indexer (seq 0 19)). by rewrite length_seq. }
  split.
  - intros name model gi H. unfold global_importance_view in H.
    ok_bind H df Hdf.
    apply global_importance_df_inv in Hdf as (importance & _ & Hlen & ->).
    destruct (sorted_frame_permutes _ _ _ _ _ features importance Hcontract H)
      as (indexer & Hperm & Hidx & Hfeat & _); try done.
    exists (pd.take indexer features). rewrite Hidx.
    split; [exact Hfeat |]. by apply Hfinish.
  - intros exp name model input e He.
    apply explain_frame in He
      as (weights & _ & Hw & Hv & Hidx & Hfeat & Hcon & Hsorted).
    destruct (sorted_frame_permutes _ _ _ _ _ features _ Hcontract Hsorted
                Hidx Hfeat Hcon) as (indexer & Hperm & Hidx' & Hfeat' & _).
    { rewrite length_zip_with. lia. }
    exists (pd.take indexer features). rewrite Hidx'.
    split; [exact Hfeat' |]. by apply Hfinish.
Qed.

Lemma presented_features_are_the_schema_witness :
  ∃ gi names,
    global_importance_view (argsort_with true) "Catboost" sample_tree = Ok gi ∧
    pd.getcol gi "Feature" = Ok (pd.StrCol names) ∧
    names ≡ₚ features ∧ NoDup names.
Proof.
  destruct (presented_features_are_the_schema (argsort_with true)
              (argsort_with_contract true)) as [Hglobal _].
  eassert (Hview : global_importance_view (argsort_with true)
                     "Catboost" sample_tree = Ok _)
    by (vm_compute; reflexivity).
  destruct (Hglobal _ _ _ Hview) as (names & Hn & Hperm & Hnodup & _).
  eexists _, names. by repeat split.
Defined.

Lemma sorted_last_is_greatest (scores : list Q) (x : Q) :
  Sorted Qle scores → x ∈ scores →
  ∃ top, last scores = Some top ∧ (x <= top)%Q.
Proof.
  intros Hsorted Hx. apply list_elem_of_lookup in Hx as [j Hj].
  pose proof (lookup_lt_Some _ _ _ Hj) as Hlt.
  destruct (lookup_lt_is_Some_2 scores (length scores - 1)) as [top Htop];
    [lia |].
  exists top. rewrite last_lookup.
  replace (Init.Nat.pred (length scores)) with (length scores - 1)%nat by lia.
  split; [exact Htop |].
  destruct (decide (j = length scores - 1)%nat) as [-> | Hne].
  - rewrite Hj in Htop. injection Htop as <-. apply Qle_refl.
  - apply (sorted_pairwise true scores Hsorted j (length scores - 1)%nat);
      [lia | done | done].
Qed.

Lemma sorted_first_is_greatest (scores : list Q) (x : Q) :
  Sorted (flip Qle) scores → x ∈ scores →
  ∃ top, head scores = Some top ∧ (x <= top)%Q.
Proof.
  intros Hsorted Hx. apply list_elem_of_lookup in Hx as [j Hj].
  destruct scores as [| top scores]; [by rewrite lookup_nil in Hj |].
  exists top. split; [reflexivity |].
  destruct j as [| j].
  - injection Hj as <-. apply Qle_refl.
  - apply (sorted_pairwise false _ Hsorted 0%nat (S j)); [lia | done | done].
Qed.

(** X6: when the sorting routine keeps the library's promise, the extreme
    rows are where the charts expect them: the last row of the global
    importance frame (the top bar of the horizontal chart) has the greatest
    importance of all features, and the first row of the contribution frame
    has the greatest contribution. *)
Theorem presented_extremes (argsort : bool → list Q → list nat) :
  argsort_contract argsort →
  (∀ name model gi importance scores x,
      global_importance_view argsort name model = Ok gi →
      global_importance name model = Ok importance →
      pd.getcol gi "Importance" = Ok (pd.NumCol scores) →
      x ∈ importance →
      ∃ top, last scores = Some top ∧ (x <= top)%Q) ∧
  (∀ exp name model input e contributions scores x,
      explain argsort exp name model input = Ok e →
      pd.getcol (feature_contributions e) "Contribution"
      = Ok (pd.NumCol contributions) →
      pd.getcol (feature_contributions_sorted e) "Contribution"
      = Ok (pd.NumCol scores) →
      x ∈ contributions →
      ∃ top, head scores = Some top ∧ (x <= top)%Q).
Proof.
  intros Hcontract. split.
  - intros name model gi importance scores x H Hgi Hscores Hx.
    unfold global_importance_view in H. ok_bind H df Hdf.
    apply global_importance_df_inv in Hdf as (importance' & Hgi' & Hlen & ->).
    rewrite Hgi in Hgi'. injection Hgi' as <-.
    destruct (sorted_frame_permutes _ _ _ _ _ features importance Hcontract H)
      as (indexer & Hperm & _ & _ & Hby & Hsorted); try done.
    rewrite Hby in Hscores. injection Hscores as <-.
    apply sorted_last_is_greatest; [exact Hsorted |].
    rewrite take_Permutation; [exact Hx | by rewrite Hlen].
  - intros exp name model input e contributions scores x He Hcon Hscores Hx.
    apply explain_frame in He
      as (weights & _ & Hw & Hv & Hidx & Hfeat & Hcon' & Hsorted).
    rewrite Hcon in Hcon'. injection Hcon' as Hc.
    assert (Hlen : length contributions = length features).
    { rewrite Hc, length_zip_with. lia. }
    destruct (sorted_frame_permutes _ _ _ _ _ features contributions Hcontract
                Hsorted Hidx Hfeat Hcon Hlen)
      as (indexer & Hperm & _ & _ & Hby & Hsorted').
    rewrite Hby in Hscores. injection Hscores as <-.
    apply sorted_first_is_greatest; [exact Hsorted' |].
    rewrite take_Permutation; [exact Hx | by rewrite Hlen].
Qed.

Lemma presented_extremes_witness :
  ∃ gi scores top,
    global_importance_view (argsort_with true) "Gradient Boosting" sample_tree
    = Ok gi ∧
    pd.getcol gi "Importance" = Ok (pd.NumCol scores) ∧
    last scores = Some top ∧ ((1 # 4) <= top)%Q.
Proof.
  destruct (presented_extremes (argsort_with true) (argsort_with_contract true))
    as [Hglobal _].
  eassert (Hview : global_importance_view (argsort_with true)
                     "Gradient Boosting" sample_tree = Ok _)
    by (vm_compute; reflexivity).
  destruct (Hglobal "Gradient Boosting" sample_tree _ _ _ (1 # 4)%Q
              Hview eq_refl eq_refl) as (top & Hlast & Hle).
  { apply (list_elem_of_lookup_2 _ 2%nat). reflexivity. }
  eexists _, _, top. split; [exact Hview |]. split; [reflexivity |].
  by split.
Defined.

(** ** Log-odds and contributions (lines 133-144) *)

Lemma inner_total (a b : list Q) :
  (np.inner a b == total (zip_with Qmult b a))%Q.
Proof.
  unfold np.inner, total. revert b.
  induction a as [| x a IH]; intros [| y b]; cbn [zip_with foldr];
    try reflexivity.
  rewrite IH. by rewrite (Qmult_comm x y).
Qed.

Lemma inner_zero (a b : list Q) :
  Forall (λ v, v == 0)%Q a → (np.inner a b == 0)%Q.
Proof.
  unfold np.inner. intros Hall. revert b.
  induction Hall as [| x a Hx _ IH]; intros [| y b]; cbn [zip_with foldr];
    try reflexivity.
  rewrite IH, Hx. reflexivity.
Qed.

(** X7: for Logistic Regression the contributions account for the whole
    log-odds: the log-odds the explanation computes equal the intercept plus
    the sum of the Contribution column. *)
Theorem log_odds_is_intercept_plus_contributions
    (argsort : bool → list Q → list nat) (exp : Q → Q)
    (model : Model) (input : list (string * Q)) (e : explanation) :
  explain argsort exp "Logistic Regression" model input = Ok e →
  ∃ intercept rest lo contributions,
    intercept_ model = Some (intercept :: rest) ∧
    log_odds e = Some [lo] ∧
    pd.getcol (feature_contributions e) "Contribution"
    = Ok (pd.NumCol contributions) ∧
    (lo == intercept + total contributions)%Q.
Proof.
  unfold explain. cbn [String.eqb Ascii.eqb Bool.eqb]. intros He.
  apply explain_lr_inv in He
    as (coefs & rest & intercept & rest' & _ & Hint & _ & _ & Hlo & _ & Hfc & _).
  exists intercept, rest', (intercept + np.inner (row_values input) coefs)%Q,
    (zip_with Qmult coefs (row_values input)).
  split; [exact Hint |]. split; [exact Hlo |].
  split; [by rewrite Hfc |].
  by rewrite inner_total.
Qed.

Lemma log_odds_is_intercept_plus_contributions_witness :
  ∃ e lo contributions,
    explain (argsort_with true) (λ _, 1%Q) "Logistic Regression" sample_lr
      (input_data (sample_widgets "Logistic Regression")) = Ok e ∧
    log_odds e = Some [lo] ∧
    pd.getcol (feature_contributions e) "Contribution"
    = Ok (pd.NumCol contributions) ∧
    (lo == (-1 # 4) + total contributions)%Q.
Proof.
  eassert (He : explain (argsort_with true) (λ _, 1%Q) "Logistic Regression"
                  sample_lr (input_data (sample_widgets "Logistic Regression"))
                = Ok _)
    by (vm_compute; reflexivity).
  destruct (log_odds_is_intercept_plus_contributions _ _ _ _ _ He)
    as (intercept & rest & lo & contributions & Hint & Hlo & Hcon & Heq).
  injection Hint as <- <-.
  eexists _, lo, contributions. split; [exact He |]. by repeat split.
Defined.

(** X8: with every feature left at 0.0, no feature contributes: every
    entry of the Contribution column is zero, for either kind of model, and
    the log-odds of a Logistic Regression model are its intercept. *)
Theorem zero_input_contributes_nothing
    (argsort : bool → list Q → list nat) (exp : Q → Q)
    (name : string) (model : Model) (w : widgets) (e : explanation) :
  (∀ feature, number_input w feature == 0)%Q →
  explain argsort exp name model (input_data w) = Ok e →
  ∃ contributions,
    pd.getcol (feature_contributions e) "Contribution"
    = Ok (pd.NumCol contributions) ∧
    length contributions = 19%nat ∧
    Forall (λ x, x == 0)%Q contributions ∧
    (∀ lo, log_odds e = Some [lo] →
           ∃ intercept rest,
             intercept_ model = Some (intercept :: rest) ∧ (lo == intercept)%Q).
Proof.
  intros Hzero He.
  assert (Hvalues : Forall (λ v, v == 0)%Q (row_values (input_data w))).
  { unfold row_values, input_data. rewrite map_map. cbn [snd].
    apply Forall_fmap, Forall_forall. intros f _. apply Hzero. }
  pose proof He as Hframe.
  apply explain_frame in Hframe as (weights & _ & Hw & Hv & _ & _ & Hcon & _).
  exists (zip_with Qmult weights (row_values (input_data w))).
  split; [exact Hcon |].
  split; [rewrite length_zip_with; change (length features) with 19%nat in *; lia |].
  split.
  - apply Forall_lookup. intros i x Hx.
    apply lookup_zip_with_Some in Hx as (c & v & -> & _ & Hvi).
    rewrite Forall_lookup in Hvalues. rewrite (Hvalues i v Hvi).
    apply Qmult_0_r.
  - intros lo Hlo. unfold explain in He.
    destruct (String.eqb name "Logistic Regression").
    + apply explain_lr_inv in He
        as (coefs & rest & b & rest' & _ & Hint & _ & _ & Hlo' & _).
      rewrite Hlo' in Hlo. injection Hlo as <-.
      exists b, rest'. split; [exact Hint |].
      rewrite (inner_zero _ coefs Hvalues). apply Qplus_0_r.
    + unfold explain_tree in He. ok_bind He fc Hfc. ok_bind He sorted Hs.
      injection He as <-. discriminate.
Qed.

Lemma zero_input_contributes_nothing_witness :
  ∃ e contributions,
    explain (argsort_with true) (λ _, 1%Q) "Logistic Regression" sample_lr
      (input_data (zero_widgets "Logistic Regression" true)) = Ok e ∧
    pd.getcol (feature_contributions e) "Contribution"
    = Ok (pd.NumCol contributions) ∧
    Forall (λ x, x == 0)%Q contributions.
Proof.
  eassert (He : explain (argsort_with true) (λ _, 1%Q) "Logistic Regression"
                  sample_lr (input_data (zero_widgets "Logistic Regression" true))
                = Ok _)
    by (vm_compute; reflexivity).
  destruct (zero_input_contributes_nothing _ _ _ _
              (zero_widgets "Logistic Regression" true) _
              (λ _, Qeq_refl 0) He)
    as (contributions & Hcon & _ & Hall & _).
  eexists _, contributions. by repeat split.
Defined.

(** ** What a run does to the database (lines 43-59, 107, 174-191) *)

Lemma started_cases (db : gmap string sql.table) :
  (is_Some (db !! "predictions") ∧ started db = db) ∨
  (db !! "predictions" = None ∧
   started db = <["predictions" := {| sql.tbl_columns := predictions_columns;
                                      sql.tbl_rows := [];
                                      sql.tbl_serial := 1 |}]> db).
Proof.
  unfold started, ensure_schema, sql.create_table_if_not_exists.
  cbn [sql.connect sql.working].
  destruct (db !! "predictions") as [t|]; cbn [sql.commit sql.committed sql.working].
  - left. eauto.
  - right. eauto.
Qed.

Lemma started_working (db : gmap string sql.table) :
  sql.working (ensure_schema (sql.connect db)) = started db.
Proof.
  unfold started. by destruct (ensure_schema_present (sql.connect db)) as [_ ->].
Qed.

Lemma started_rows (db : gmap string sql.table) :
  stored_rows (started db) = stored_rows db ∧
  next_key (started db) = next_key db ∧
  (∀ name, name ≠ "predictions" → started db !! name = db !! name) ∧
  (∀ t, db !! "predictions" = Some t → started db !! "predictions" = Some t).
Proof.
  unfold stored_rows, next_key.
  destruct (started_cases db) as [[[t Ht] ->] | [Hnone ->]].
  - by rewrite Ht.
  - rewrite Hnone, lookup_insert_eq. cbn [sql.tbl_rows sql.tbl_serial].
    repeat split; try done.
    intros name Hne. by rewrite lookup_insert_ne.
Qed.

(** The three ways a run can end. *)
Lemma app_cases (argsort : bool → list Q → list nat) (exp : Q → Q)
    (joblib_load : string → result Model) (now : Z) (w : widgets)
    (db db' : gmap string sql.table) (r : result page) :
  app argsort exp joblib_load now w db = (db', r) →
  (∃ e, load_model joblib_load (selectbox w) = Raise e ∧
        db' = db ∧ r = Raise e) ∨
  (db' = started db ∧
   ((∃ e, r = Raise e) ∨
    (∃ pg, r = Ok pg ∧ predicted pg = None ∧ button w = false))) ∨
  (∃ model v c' pg,
      load_model joblib_load (selectbox w) = Ok model ∧
      button w = true ∧
      on_predict argsort exp now (selectbox w) model (input_data w)
        (ensure_schema (sql.connect db)) = Ok (v, c') ∧
      db' = sql.committed c' ∧ r = Ok pg ∧ predicted pg = Some v).
Proof.
  unfold app. fold (started db). intros Happ.
  destruct (load_model joblib_load (selectbox w)) as [model | e].
  2: { injection Happ as <- <-. left. eauto. }
  right.
  destruct (global_importance_view argsort (selectbox w) model) as [gi | e].
  2: { injection Happ as <- <-. left. eauto. }
  destruct (button w).
  2: { injection Happ as <- <-. left. split; [done |]. right. eauto. }
  destruct (on_predict _ _ _ _ _ _ _) as [[v c'] | e] eqn:Hon.
  2: { injection Happ as <- <-. left. eauto. }
  injection Happ as <- <-. right. by eauto 10.
Qed.

Lemma on_predict_stores (argsort : bool → list Q → list nat) (exp : Q → Q)
    (now : Z) (name : string) (model : Model) (input : list (string * Q))
    (db : gmap string sql.table) (c' : sql.connection) (v : prediction_view) :
  on_predict argsort exp now name model input (ensure_schema (sql.connect db))
  = Ok (v, c') →
  ∃ t row,
    started db !! "predictions" = Some t ∧
    sql.fill_all now (sql.tbl_serial t)
      [ ("model_name", sql.Text name);
        ("prediction", sql.Text (label v));
        ("prediction_proba_benign", opt_float (probabilities v).1);
        ("prediction_proba_malignant", opt_float (probabilities v).2);
        ("input_data", sql.Json input) ] (sql.tbl_columns t) = Ok row ∧
    sql.committed c'
    = <["predictions" := {| sql.tbl_columns := sql.tbl_columns t;
                            sql.tbl_rows := sql.tbl_rows t ++ [row];
                            sql.tbl_serial := sql.tbl_serial t + 1 |}]>
        (started db).
Proof.
  intros Hon.
  apply on_predict_inv in Hon
    as (prediction & p & pp & e & c1 & _ & _ & _ & _ & _ & Hins & Hlabel & ->).
  unfold insert_prediction in Hins.
  apply insert_into_inv in Hins as (t & row & Ht & _ & Hrow & ->).
  rewrite started_working in Ht. exists t, row.
  rewrite Hlabel. split; [exact Ht |]. split; [exact Hrow |].
  cbn [sql.commit sql.committed sql.working]. by rewrite started_working.
Qed.

(** X9: a run only appends. Whatever happens in it, every other relation
    of the database is left as it was, an existing [predictions] table
    keeps its columns, and the rows stored before the run are still there,
    in order, followed by at most one new row. *)
Theorem run_only_appends
    (argsort : bool → list Q → list nat) (exp : Q → Q)
    (joblib_load : string → result Model) (now : Z) (w : widgets)
    (db : gmap string sql.table) :
  (∀ name, name ≠ "predictions" →
     (app argsort exp joblib_load now w db).1 !! name = db !! name) ∧
  (∀ t, db !! "predictions" = Some t →
     ∃ t', (app argsort exp joblib_load now w db).1 !! "predictions" = Some t' ∧
           sql.tbl_columns t' = sql.tbl_columns t) ∧
  (stored_rows (app argsort exp joblib_load now w db).1 = stored_rows db ∨
   ∃ row, stored_rows (app argsort exp joblib_load now w db).1
          = stored_rows db ++ [row]).
Proof.
  destruct (app argsort exp joblib_load now w db) as [db' r] eqn:Happ.
  cbn [fst]. destruct (started_rows db) as (Hrows & _ & Hother & Hsame).
  apply app_cases in Happ
    as [(e & _ & -> & _) | [[-> _] | (model & v & c' & pg & _ & _ & Hon & -> & _)]].
  - split; [done |]. split; [eauto |]. by left.
  - split; [exact Hother |]. split; [eauto |]. by left.
  - apply on_predict_stores in Hon as (t & row & Ht & _ & ->).
    split; [| split].
    + intros name Hne. rewrite lookup_insert_ne by done. by apply Hother.
    + intros t0 Ht0. rewrite (Hsame _ Ht0) in Ht. injection Ht as <-.
      rewrite lookup_insert_eq. eauto.
    + right. exists row. rewrite <- Hrows. unfold stored_rows.
      by rewrite lookup_insert_eq, Ht.
Qed.




(** The row the INSERT statement builds in a table with the columns the
    script declares. *)
Lemma fill_all_declared (now serial : Z) (name lbl : string)
    (proba : option Q * option Q) (input : list (string * Q))
    (row : list (string * sql.value)) :
  sql.fill_all now serial
    [ ("model_name", sql.Text name);
      ("prediction", sql.Text lbl);
      ("prediction_proba_benign", opt_float proba.1);
      ("prediction_proba_malignant", opt_float proba.2);
      ("input_data", sql.Json input) ] predictions_columns = Ok row →
  row = [ ("id", sql.Int serial);
          ("model_name", sql.Text name);
          ("prediction", sql.Text lbl);
          ("prediction_proba_benign", opt_float proba.1);
          ("prediction_proba_malignant", opt_float proba.2);
          ("input_data", sql.Json input);
          ("created_at", sql.Timestamp now) ].
Proof.
  unfold predictions_columns.
  cbn [sql.fill_all sql.fill sql.default_value sql.col_name sql.col_type
       sql.col_default pd.assoc String.eqb Ascii.eqb Bool.eqb
       mbind result_bind mret result_ret sql.store fst snd].
  destruct (serial <=? sql.int4_max)%Z; [| discriminate].
  cbn [mbind result_bind].
  destruct (String.length name <=? 50)%nat; [| discriminate].
  destruct (String.length lbl <=? 10)%nat; [| discriminate].
  destruct proba as [[b|] [m|]];
    cbn [opt_float mbind result_bind mret result_ret sql.store fst snd];
    by intros [= <-].
Qed.

(** X11: in a table with the columns the script declares (one the script
    created, or an equal one), the row a completed request stores is
    exactly: the next key of the sequence, the selected model name, the
    label shown, the two probabilities (or nulls), the whole input
    dictionary, and the time of the write. *)
Theorem stored_row_content
    (argsort : bool → list Q → list nat) (exp : Q → Q)
    (joblib_load : string → result Model) (now : Z) (w : widgets)
    (db db' : gmap string sql.table) (pg : page) (v : prediction_view) :
  (∀ t, db !! "predictions" = Some t →
        sql.tbl_columns t = predictions_columns) →
  app argsort exp joblib_load now w db = (db', Ok pg) →
  predicted pg = Some v →
  last_prediction db'
  = Some [ ("id", sql.Int (next_key db));
           ("model_name", sql.Text (selectbox w));
           ("prediction", sql.Text (label v));
           ("prediction_proba_benign", opt_float (probabilities v).1);
           ("prediction_proba_malignant", opt_float (probabilities v).2);
           ("input_data", sql.Json (input_data w));
           ("created_at", sql.Timestamp now) ].
Proof.
  intros Hdb Happ Hv.
  destruct (app_predicted_inv _ _ _ _ _ _ _ _ _ Happ Hv)
    as (model & c' & _ & Hon & ->).
  apply on_predict_stores in Hon as (t & row & Ht & Hrow & ->).
  assert (Hcols : sql.tbl_columns t = predictions_columns ∧
                  sql.tbl_serial t = next_key db).
  { unfold next_key.
    destruct (started_cases db) as [[[t0 Ht0] Heq] | [Hnone Heq]];
      rewrite Heq in Ht.
    - rewrite Ht0 in Ht. injection Ht as <-. rewrite Ht0. eauto.
    - rewrite lookup_insert_eq in Ht. injection Ht as <-. by rewrite Hnone. }
  destruct Hcols as [Hcols Hserial]. rewrite Hcols, Hserial in Hrow.
  apply fill_all_declared in Hrow as ->.
  unfold last_prediction. rewrite lookup_insert_eq.
  cbn [mbind option_bind sql.tbl_rows]. apply last_snoc.
Qed.

Lemma stored_row_content_witness :
  last_prediction
    (app (argsort_with true) (λ _, 1%Q) sample_load 1000
       (sample_widgets "XGBoost") ∅).1
  = Some [ ("id", sql.Int 1);
           ("model_name", sql.Text "XGBoost");
           ("prediction", sql.Text "Benign");
           ("prediction_proba_benign", sql.NULL);
           ("prediction_proba_malignant", sql.NULL);
           ("input_data", sql.Json (input_data (sample_widgets "XGBoost")));
           ("created_at", sql.Timestamp 1000) ].
Proof.
  set (run := app _ _ _ _ _ _).
  assert (Hrun : ∃ pg v, run.2 = Ok pg ∧ predicted pg = Some v ∧
                         label v = "Benign" ∧ probabilities v = (None, None)).
  { vm_compute. eexists _, _. repeat split; reflexivity. }
  destruct Hrun as (pg & v & Happ%run_completed & Hv & Hlabel & Hproba).
  rewrite (stored_row_content (argsort_with true) (λ _, 1%Q) sample_load 1000
             (sample_widgets "XGBoost") ∅ run.1 pg v).
  - by rewrite Hlabel, Hproba.
  - intros t Ht. by rewrite lookup_empty in Ht.
  - exact Happ.
  - exact Hv.
Defined.

(** *** Keys *)

Lemma StronglySorted_lt_NoDup (ids : list Z) :
  StronglySorted Z.lt ids → NoDup ids.
Proof.
  induction 1 as [| z ids _ IH Hall]; constructor; [| exact IH].
  intros Hin. rewrite Forall_forall in Hall. specialize (Hall z Hin). lia.
Qed.

Lemma keys_ok_append (t : sql.table) (row : list (string * sql.value)) :
  keys_ok t →
  field "id" row = Some (sql.Int (sql.tbl_serial t)) →
  keys_ok {| sql.tbl_columns := sql.tbl_columns t;
             sql.tbl_rows := sql.tbl_rows t ++ [row];
             sql.tbl_serial := sql.tbl_serial t + 1 |}.
Proof.
  intros (Hcols & ids & Hids & Hsorted & Hbelow) Hrow.
  split; [exact Hcols |]. exists (ids ++ [sql.tbl_serial t]).
  cbn [sql.tbl_rows sql.tbl_serial]. split; [| split].
  - apply Forall2_app; [exact Hids |]. by repeat constructor.
  - apply StronglySorted_app_2; [| exact Hsorted | by repeat constructor].
    intros x1 x2 Hx1 ->%list_elem_of_singleton.
    rewrite Forall_forall in Hbelow. by apply Hbelow.
  - apply Forall_app. split.
    + eapply Forall_impl; [exact Hbelow |]. cbn. intros; lia.
    + repeat constructor. lia.
Qed.

(** X12: the keys of the [predictions] table never repeat. If the table
    (when present) has the declared columns and its keys increase along
    the rows and lie below the next value of the sequence, the same holds
    after any run of the script, and the keys of all stored rows are
    pairwise distinct. An empty database satisfies the condition. *)
Theorem keys_stay_unique
    (argsort : bool → list Q → list nat) (exp : Q → Q)
    (joblib_load : string → result Model) (now : Z) (w : widgets)
    (db : gmap string sql.table) :
  keys_inv db →
  keys_inv (app argsort exp joblib_load now w db).1 ∧
  ∀ t, (app argsort exp joblib_load now w db).1 !! "predictions" = Some t →
       ∃ ids,
         Forall2 (λ row z, field "id" row = Some (sql.Int z))
           (sql.tbl_rows t) ids ∧
         NoDup ids.
Proof.
  intros Hinv.
  enough (Hkeys : keys_inv (app argsort exp joblib_load now w db).1).
  { split; [exact Hkeys |]. intros t Ht.
    destruct (Hkeys t Ht) as (_ & ids & Hids & Hsorted & _).
    exists ids. split; [exact Hids |]. by apply StronglySorted_lt_NoDup. }
  assert (Hstarted : keys_inv (started db)).
  { destruct (started_cases db) as [[_ ->] | [_ ->]]; [exact Hinv |].
    intros t. rewrite lookup_insert_eq. intros [= <-].
    split; [reflexivity |]. exists []. cbn [sql.tbl_rows].
    repeat split; constructor. }
  destruct (app argsort exp joblib_load now w db) as [db' r] eqn:Happ.
  cbn [fst].
  apply app_cases in Happ
    as [(e & _ & -> & _) | [[-> _] | (model & v & c' & pg & _ & _ & Hon & -> & _)]];
    [exact Hinv | exact Hstarted |].
  apply on_predict_stores in Hon as (t & row & Ht & Hrow & ->).
  intros t'. rewrite lookup_insert_eq. intros [= <-].
  pose proof (Hstarted t Ht) as Hok. apply keys_ok_append; [exact Hok |].
  destruct Hok as [Hcols _]. rewrite Hcols in Hrow.
  by apply fill_all_declared in Hrow as ->.
Qed.

Lemma keys_stay_unique_witness :
  keys_inv
    (app (argsort_with true) (λ _, 1%Q) sample_load 1000
       (sample_widgets "LightGBM")
       (app (argsort_with true) (λ _, 1%Q) sample_load 999
          (sample_widgets "Logistic Regression") ∅).1).1.
Proof.
  assert (Hempty : keys_inv ∅).
  { intros t Ht. by rewrite lookup_empty in Ht. }
  apply keys_stay_unique. apply keys_stay_unique. exact Hempty.
Defined.

(** ** The audit trail does not depend on the presentation *)

Lemma sort_values_same_outcome (a1 a2 : bool → list Q → list nat)
    (df : pd.frame) (by_ : string) (ascending : bool) :
  same_outcome (pd.sort_values a1 df by_ ascending)
               (pd.sort_values a2 df by_ ascending).
Proof.
  unfold pd.sort_values.
  destruct (pd.getcol df by_) as [c|]; cbn [mbind result_bind]; [| done].
  by destruct (pd.numeric c).
Qed.

(** Steps through a bind that both computations share. *)
Ltac same_step :=
  match goal with
  | |- same_outcome (?m ≫= _) (?m ≫= _) =>
      destruct m; cbn [mbind result_bind same_outcome]; [| reflexivity]
  end.

(** The last step of an explanation: the sort, by either routine. *)
Ltac same_sort :=
  match goal with
  | |- same_outcome (pd.sort_values ?x ?df ?b ?asc ≫= _)
                    (pd.sort_values ?y ?df ?b ?asc ≫= _) =>
      let Hs := fresh "Hs" in
      pose proof (sort_values_same_outcome x y df b asc) as Hs;
      destruct (pd.sort_values x df b asc), (pd.sort_values y df b asc);
      cbn [mbind result_bind mret result_ret same_outcome] in *; done
  end.

Lemma explain_same_outcome (a1 a2 : bool → list Q → list nat) (e1 e2 : Q → Q)
    (name : string) (model : Model) (input : list (string * Q)) :
  same_outcome (explain a1 e1 name model input) (explain a2 e2 name model input).
Proof.
  unfold explain. destruct (String.eqb name "Logistic Regression").
  - unfold explain_lr. do 6 same_step. same_sort.
  - unfold explain_tree. same_step. same_sort.
Qed.

Lemma on_predict_same (a1 a2 : bool → list Q → list nat) (e1 e2 : Q → Q)
    (now : Z) (name : string) (model : Model) (input : list (string * Q))
    (c : sql.connection) :
  match on_predict a1 e1 now name model input c,
        on_predict a2 e2 now name model input c with
  | Ok (v1, c1), Ok (v2, c2) =>
      c1 = c2 ∧ label v1 = label v2 ∧ probabilities v1 = probabilities v2
  | Raise x1, Raise x2 => x1 = x2
  | _, _ => False
  end.
Proof.
  unfold on_predict.
  destruct (predict model input) as [prediction|]; cbn [mbind result_bind];
    [| done].
  destruct (match predict_proba model with
            | Some f => Some <$> f input
            | None => mret None
            end) as [pp|]; cbn [mbind result_bind]; [| done].
  destruct (getitem prediction 0) as [p|]; cbn [mbind result_bind]; [| done].
  destruct (class_probabilities pp) as [proba|]; cbn [mbind result_bind];
    [| done].
  pose proof (explain_same_outcome a1 a2 e1 e2 name model input) as He.
  destruct (explain a1 e1 name model input), (explain a2 e2 name model input);
    cbn [mbind result_bind same_outcome] in *; try done.
  by destruct (insert_prediction now name (prediction_result p) proba input c).
Qed.

(** X13: what a run stores and what it reports do not depend on the
    sorting routine or on the exponential used for the charts: two runs that
    differ only in these leave the same database, end alike (both show a
    page or both stop at the same exception) and show the same label and
    probabilities. *)
Theorem audit_independent_of_presentation
    (a1 a2 : bool → list Q → list nat) (e1 e2 : Q → Q)
    (joblib_load : string → result Model) (now : Z) (w : widgets)
    (db : gmap string sql.table) :
  (app a1 e1 joblib_load now w db).1 = (app a2 e2 joblib_load now w db).1 ∧
  same_outcome (app a1 e1 joblib_load now w db).2
               (app a2 e2 joblib_load now w db).2 ∧
  (∀ pg1 pg2 v1,
      (app a1 e1 joblib_load now w db).2 = Ok pg1 →
      (app a2 e2 joblib_load now w db).2 = Ok pg2 →
      predicted pg1 = Some v1 →
      ∃ v2, predicted pg2 = Some v2 ∧ label v1 = label v2 ∧
            probabilities v1 = probabilities v2).
Proof.
  unfold app.
  destruct (load_model joblib_load (selectbox w)) as [model|]; cbn [fst snd];
    [| by repeat split].
  assert (Hview : same_outcome (global_importance_view a1 (selectbox w) model)
                               (global_importance_view a2 (selectbox w) model)).
  { unfold global_importance_view. same_step.
    apply sort_values_same_outcome. }
  destruct (global_importance_view a1 (selectbox w) model) as [gi1 | x1],
    (global_importance_view a2 (selectbox w) model) as [gi2 | x2];
    cbn [same_outcome] in Hview; try done.
  destruct (button w); cbn [fst snd same_outcome].
  2: { split; [reflexivity |]. split; [exact I |].
       intros pg1 pg2 v [= <-] _ Hv. discriminate Hv. }
  pose proof (on_predict_same a1 a2 e1 e2 now (selectbox w) model (input_data w)
                (ensure_schema (sql.connect db))) as Hsame.
  destruct (on_predict a1 _ _ _ _ _ _) as [[v1 c1] | y1],
    (on_predict a2 _ _ _ _ _ _) as [[v2 c2] | y2];
    cbn [fst snd same_outcome]; try done.
  destruct Hsame as (-> & Hlabel & Hproba).
  split; [reflexivity |]. split; [exact I |].
  intros pg1 pg2 v [= <-] [= <-] [= <-]. cbn [predicted]. eauto.
Qed.


(** ** Failures of the model object (lines 109-110, 114, 122-123) *)

(** X15: when Predict is clicked and the model fails, the run stops with
    that failure and stores nothing. An exception raised by [predict] or by
    [predict_proba] is passed on unchanged; a prediction with no entry, or a
    probability array with no row or with a first row of fewer than two
    entries, raises [IndexError]. In each case the database is as the start
    of the run left it. *)
Theorem model_failures_stop_the_run
    (argsort : bool → list Q → list nat) (exp : Q → Q)
    (joblib_load : string → result Model) (now : Z) (w : widgets)
    (db : gmap string sql.table) (model : Model) (gi : pd.frame) :
  load_model joblib_load (selectbox w) = Ok model →
  global_importance_view argsort (selectbox w) model = Ok gi →
  button w = true →
  (∀ e, predict model (input_data w) = Raise e →
        app argsort exp joblib_load now w db = (started db, Raise e)) ∧
  (∀ prediction f e,
        predict model (input_data w) = Ok prediction →
        predict_proba model = Some f → f (input_data w) = Raise e →
        app argsort exp joblib_load now w db = (started db, Raise e)) ∧
  (predict model (input_data w) = Ok [] →
   (∀ f, predict_proba model = Some f → ∃ rows, f (input_data w) = Ok rows) →
   app argsort exp joblib_load now w db = (started db, Raise IndexError)) ∧
  (∀ p ps f rows,
        predict model (input_data w) = Ok (p :: ps) →
        predict_proba model = Some f → f (input_data w) = Ok rows →
        (∀ r, rows !! 0%nat = Some r → (length r < 2)%nat) →
        app argsort exp joblib_load now w db = (started db, Raise IndexError)).
Proof.
  intros Hload Hview Hbutton.
  assert (Hstop : ∀ e,
            on_predict argsort exp now (selectbox w) model (input_data w)
              (ensure_schema (sql.connect db)) = Raise e →
            app argsort exp joblib_load now w db = (started db, Raise e)).
  { intros e Hon. unfold app. by rewrite Hload, Hview, Hbutton, Hon. }
  split; [| split; [| split]].
  - intros e Hpred. apply Hstop. unfold on_predict. by rewrite Hpred.
  - intros prediction f e Hpred Hf Hfe. apply Hstop. unfold on_predict.
    rewrite Hpred, Hf, Hfe. reflexivity.
  - intros Hpred Hproba. apply Hstop. unfold on_predict. rewrite Hpred.
    cbn [mbind result_bind].
    destruct (predict_proba model) as [f|]; [| reflexivity].
    destruct (Hproba f eq_refl) as [rows ->]. reflexivity.
  - intros p ps f rows Hpred Hf Hrows Hshort. apply Hstop. unfold on_predict.
    rewrite Hpred, Hf, Hrows.
    cbn [mbind result_bind fmap result_fmap getitem lookup list_lookup
         class_probabilities].
    destruct rows as [| r rows']; [reflexivity |].
    specialize (Hshort r eq_refl).
    destruct r as [| b [| m r]]; cbn [length] in Hshort; [done | done | lia].
Qed.

Lemma model_failures_stop_the_run_witness :
  app (argsort_with true) (λ _, 1%Q) (λ _, Ok sample_out_of_shape)
    1000 (sample_widgets "XGBoost") ∅
  = (started ∅, Raise IndexError).
Proof.
  eassert (Hview : global_importance_view (argsort_with true) "XGBoost"
                     sample_out_of_shape = Ok _)
    by (vm_compute; reflexivity).
  destruct (model_failures_stop_the_run (argsort_with true) (λ _, 1%Q)
              (λ _, Ok sample_out_of_shape) 1000 (sample_widgets "XGBoost") ∅
              sample_out_of_shape _ eq_refl Hview eq_refl)
    as (_ & _ & Hempty & _).
  apply Hempty; [reflexivity |]. intros f [= <-]. eauto.
Defined.

(** ** Model objects that lack an attribute (lines 70, 73, 133-134, 157) *)

(** X16: a model object without the attribute its name calls for stops
    the script when the page is drawn, before any prediction: a Logistic
    Regression object without [coef_], or a tree-based one without
    [feature_importances_], raises [AttributeError], and an empty [coef_]
    raises [IndexError]; nothing is stored even if Predict was clicked. A
    Logistic Regression object that has coefficients but no [intercept_]
    fails later, in the explanation, with [AttributeError]. *)
Theorem missing_attribute_stops_the_run
    (argsort : bool → list Q → list nat) (exp : Q → Q)
    (joblib_load : string → result Model) (now : Z) (w : widgets)
    (db : gmap string sql.table) (model : Model) :
  load_model joblib_load (selectbox w) = Ok model →
  (selectbox w = "Logistic Regression" → coef_ model = None →
   app argsort exp joblib_load now w db
   = (started db, Raise (AttributeError "coef_"))) ∧
  (selectbox w = "Logistic Regression" → coef_ model = Some [] →
   app argsort exp joblib_load now w db = (started db, Raise IndexError)) ∧
  (selectbox w ∈ tree_based_models → feature_importances_ model = None →
   app argsort exp joblib_load now w db
   = (started db, Raise (AttributeError "feature_importances_"))) ∧
  (∀ coefs rest input,
      coef_ model = Some (coefs :: rest) → intercept_ model = None →
      explain argsort exp "Logistic Regression" model input
      = Raise (AttributeError "intercept_")).
Proof.
  intros Hload.
  assert (Hstop : ∀ e,
            global_importance (selectbox w) model = Raise e →
            app argsort exp joblib_load now w db = (started db, Raise e)).
  { intros e Hgi. unfold app, global_importance_view, global_importance_df.
    by rewrite Hload, Hgi. }
  split; [| split; [| split]].
  - intros Hname Hcoef. apply Hstop. unfold global_importance.
    rewrite Hname. cbn [String.eqb Ascii.eqb Bool.eqb]. by rewrite Hcoef.
  - intros Hname Hcoef. apply Hstop. unfold global_importance.
    rewrite Hname. cbn [String.eqb Ascii.eqb Bool.eqb]. by rewrite Hcoef.
  - intros Hname Hfi. apply Hstop. unfold global_importance.
    rewrite (tree_based_not_lr _ Hname), bool_decide_eq_true_2 by done.
    by rewrite Hfi.
  - intros coefs rest input Hcoef Hint. unfold explain, explain_lr.
    cbn [String.eqb Ascii.eqb Bool.eqb]. by rewrite Hcoef, Hint.
Qed.

Lemma missing_attribute_stops_the_run_witness :
  app (argsort_with true) (λ _, 1%Q) (λ _, Ok sample_tree) 1000
    (sample_widgets "Logistic Regression") ∅
  = (started ∅, Raise (AttributeError "coef_")).
Proof.
  destruct (missing_attribute_stops_the_run (argsort_with true) (λ _, 1%Q)
              (λ _, Ok sample_tree) 1000
              (sample_widgets "Logistic Regression") ∅ sample_tree eq_refl)
    as (Hcoef & _).
  by apply Hcoef.
Defined.

(** ** Sample runs for the unconditional properties *)

Lemma global_importance_name_error_witness :
  global_importance "Unknown" sample_lr = Raise (NameError "global_importance").
Proof.
  apply global_importance_name_error.
  unfold model_names, model_paths. cbn [map fst].
  rewrite !not_elem_of_cons. repeat split; try discriminate.
  apply not_elem_of_nil.
Defined.

Lemma run_only_appends_witness :
  (app (argsort_with true) (λ _, 1%Q) sample_load 1000
     (sample_widgets "Catboost") ∅).1 !! "users" = None.
Proof.
  destruct (run_only_appends (argsort_with true) (λ _, 1%Q) sample_load 1000
              (sample_widgets "Catboost") ∅) as (Hother & _).
  rewrite Hother by discriminate. apply lookup_empty.
Defined.

Lemma audit_independent_of_presentation_witness :
  (app (argsort_with true) (λ _, 1%Q) sample_load 1000
     (sample_widgets "Logistic Regression") ∅).1
  = (app (argsort_with false) (λ _, 0%Q) sample_load 1000
       (sample_widgets "Logistic Regression") ∅).1.
Proof.
  apply (audit_independent_of_presentation (argsort_with true)
           (argsort_with false) (λ _, 1%Q) (λ _, 0%Q)).
Defined.

(** * The two claims the code does not keep as stated *)

(** ** The error of a length mismatch *)

(** C4 (as stated) fails: the exception a mismatched handle runs into is
    not a [DimensionMismatchError]. With 18 coefficients against the 19
    features, the global importance frame and the explanation both stop
    with an exception of class [ValueError]. *)
Lemma mismatch_error_is_not_DimensionMismatchError :
  ¬ (∀ name model importance,
       global_importance name model = Ok importance →
       length importance ≠ length features →
       ∃ e, global_importance_df name model = Raise e ∧
            exn_class e = "DimensionMismatchError") ∧
  ¬ (∀ argsort exp model w coefs rest intercept rest',
       coef_ model = Some (coefs :: rest) →
       intercept_ model = Some (intercept :: rest') →
       length coefs ≠ length features →
       ∃ e, explain argsort exp "Logistic Regression" model (input_data w)
            = Raise e ∧
            exn_class e = "DimensionMismatchError").
Proof.
  split.
  - intros H.
    destruct (H "Logistic Regression" sample_lr_18 _ eq_refl) as (e & He & Hclass).
    { cbn. lia. }
    vm_compute in He. injection He as <-. discriminate Hclass.
  - intros H.
    destruct (H (argsort_with true) (λ _, 1%Q) sample_lr_18
                (sample_widgets "Logistic Regression") _ [] _ []
                eq_refl eq_refl) as (e & He & Hclass).
    { cbn. lia. }
    vm_compute in He. injection He as <-. discriminate Hclass.
Qed.

(** ** Log-odds, sigmoid and the model's own probability *)



